(** * Eye of Retail: the frame pipeline of [yolo.py]

    A shallow embedding of [ObjectDetection] (src/yolo.py): the source opened
    through OpenCV, the frame sampler of [__call__], the conversion of the
    detector's normalised boxes to pixels, the regions handed to the [logic]
    callback and the overlays drawn by [plot_boxes].

    Conventions of the embedding.
    - Python floats that the code computes with (frame rates, normalised
      coordinates, reported width and height) are rationals [Q]: every finite
      float is one, [int()] and [math.floor] are exact on them, and the
      products and quotients are the exact ones (the rounding of the float
      operation itself, NaN and infinities are outside the model).  Where a
      statement depends on the rounding of a product, the rounding is a
      parameter of the definition ([to_pixel_fl]).
    - A frame is an object on a heap, named by its index; [cv2.rectangle] and
      [cv2.putText] update the object in place.  Rasterisation is kept
      symbolic: a buffer is the decoded data plus the ordered list of the
      drawing calls applied to it.
    - Every call that leaves the module (OpenCV, the model, [logic]) is logged
      in a trace, in program order.
    - [settings.VIDEO_INPUT], [settings.CAM_FMS] and the pretrained model are
      not part of the module: they are parameters of the definitions. *)

From Stdlib Require Import ZArith QArith Qround String DecimalString Lia.
From stdpp Require Import base option list.

Close Scope Q_scope.
Open Scope Z_scope.

(** ** Data *)

(** The exceptions that matter here. *)
Inductive exn : Set :=
| AssertionError
| ZeroDivisionError
| IndexError
| AttributeError
| IOError
| DanglingFrame.   (* a frame name that is not on the heap: never raised by a run *)

Inductive outcome (A : Type) : Type :=
| Ok (a : A)
| Raise (e : exn).
Arguments Ok {A} a.
Arguments Raise {A} e.

(** ** Python numerics *)

Module Py.

(** [int(x)] on a float: truncation toward zero. *)
Definition int (x : Q) : Z := Z.quot (Qnum x) (Zpos (Qden x)).

(** [math.floor(x)]. *)
Definition floor (x : Q) : Z := Qfloor x.

(** [str(n)] for a non-negative integer, as an f-string formats it. *)
Definition str (n : nat) : string := NilEmpty.string_of_uint (Nat.to_uint n).

(** [a > b] on numbers. *)
Definition gt (a b : Q) : bool := negb (Qle_bool a b).

(** [x == 0] on numbers. *)
Definition is_zero (x : Q) : bool := Qeq_bool x 0.

(** [round(x)] on a float: to the nearest integer, ties to the even one. *)
Definition round (x : Q) : Z :=
  let f := Qfloor x in
  let r := (x - inject_Z f)%Q in
  if Qle_bool r (1 # 2)
  then if Qeq_bool r (1 # 2) then (if Z.even f then f else f + 1) else f
  else f + 1.

(** [a / b] on floats. *)
Definition truediv (a b : Q) : outcome Q :=
  if is_zero b then Raise ZeroDivisionError else Ok (a / b)%Q.

(** [a % b] on integers: the sign of the result is the divisor's. *)
Definition mod_ (a b : Z) : outcome Z :=
  if b =? 0 then Raise ZeroDivisionError else Ok (a mod b).

End Py.

Definition point : Set := (Z * Z)%type.
Definition colour : Set := (Z * Z * Z)%type.

Inductive font : Set := FONT_HERSHEY_SIMPLEX.

(** One drawing call applied to a buffer. *)
Inductive draw_op : Set :=
| OpRectangle (pt1 pt2 : point) (color : colour) (thickness : Z)
| OpText (text : string) (org : point) (fontFace : font) (fontScale : Z)
         (color : colour) (thickness : Z).

(** A frame buffer: [shape[0]], [shape[1]], the decoded pixels (opaque) and
    what has been drawn over them. *)
Record image : Set := Image {
  shape0 : Z;
  shape1 : Z;
  pixels : N;
  overlays : list draw_op
}.

(** The name of a frame object. *)
Abbreviation ref := nat (only parsing).

(** A row of [results.xyxyn[0]]: normalised corners, confidence, class. *)
Record detection : Set := Detection {
  d_x1 : Q; d_y1 : Q; d_x2 : Q; d_y2 : Q; d_conf : Q; d_cls : Q
}.

(** A row of [cord]: the detection without its last column. *)
Record cord_row : Set := CordRow {
  row0 : Q; row1 : Q; row2 : Q; row3 : Q; row4 : Q
}.

(** An element of [faces]: [[frame, x1, y1, x2-x1, y2-y1]]. *)
Record region : Set := Region {
  r_frame : ref; r_x : Z; r_y : Z; r_w : Z; r_h : Z
}.

(** What [settings.VIDEO_INPUT] names, when OpenCV can open it. *)
Record video : Set := Video {
  v_width : Q;
  v_height : Q;
  v_fps : Q;
  v_frames : list image
}.

(** A [cv2.VideoCapture] object. *)
Record capture : Set := Capture {
  isOpened : bool;
  CAP_PROP_FRAME_WIDTH : Q;
  CAP_PROP_FRAME_HEIGHT : Q;
  CAP_PROP_FPS : Q;
  stream : list image
}.

(** Calls that leave the module, as logged. *)
Inductive event : Set :=
| EStartWindowThread
| EVideoCapture
| ERead (ret : bool) (frame : option ref)
| EModel (frame : ref)
| ELogic (faces : list region) (width height : Q)
| ERectangle (frame : ref) (pt1 pt2 : point) (color : colour) (thickness : Z)
| EPutText (frame : ref) (text : string) (org : point) (fontFace : font)
           (fontScale : Z) (color : colour) (thickness : Z)
| EImshow (winname : string) (frame : ref) (shown : image)
| ERelease
| EDestroyAllWindows
| EWaitKey (delay : Z).

(** The heap of frame objects, the trace, and the attributes of [self]. *)
Record state : Set := State {
  heap : list image;
  trace : list event;
  self_width : option Q;
  self_height : option Q
}.

Definition initial : state :=
  {| heap := []; trace := []; self_width := None; self_height := None |}.

(** ** The monad of the embedding: state and exceptions *)

Definition M (A : Type) : Type := state -> outcome A * state.

#[global] Instance M_ret : MRet M := fun A a s => (Ok a, s).
#[global] Instance M_bind : MBind M := fun A B f m s =>
  match m s with
  | (Ok a, s') => f a s'
  | (Raise e, s') => (Raise e, s')
  end.

Definition raise {A} (e : exn) : M A := fun s => (Raise e, s).

Definition assert_ (b : bool) : M unit :=
  if b then mret tt else raise AssertionError.

Definition emit (e : event) : M unit := fun s =>
  (Ok tt, {| heap := heap s; trace := trace s ++ [e];
             self_width := self_width s; self_height := self_height s |}).

(** A new frame object. *)
Definition alloc (img : image) : M ref := fun s =>
  (Ok (length (heap s)),
   {| heap := heap s ++ [img]; trace := trace s;
      self_width := self_width s; self_height := self_height s |}).

Definition deref (r : ref) : M image := fun s =>
  match heap s !! r with
  | Some img => (Ok img, s)
  | None => (Raise DanglingFrame, s)
  end.

(** In-place update of a frame object. *)
Definition draw (r : ref) (op : draw_op) : M unit := fun s =>
  match heap s !! r with
  | Some img =>
      (Ok tt,
       {| heap := <[r := {| shape0 := shape0 img; shape1 := shape1 img;
                            pixels := pixels img;
                            overlays := overlays img ++ [op] |}]> (heap s);
          trace := trace s;
          self_width := self_width s; self_height := self_height s |})
  | None => (Raise DanglingFrame, s)
  end.

Definition set_width (w : Q) : M unit := fun s =>
  (Ok tt, {| heap := heap s; trace := trace s;
             self_width := Some w; self_height := self_height s |}).

Definition set_height (h : Q) : M unit := fun s =>
  (Ok tt, {| heap := heap s; trace := trace s;
             self_width := self_width s; self_height := Some h |}).

Definition get_width : M Q := fun s =>
  match self_width s with Some w => (Ok w, s) | None => (Raise AttributeError, s) end.

Definition get_height : M Q := fun s =>
  match self_height s with Some h => (Ok h, s) | None => (Raise AttributeError, s) end.

Definition lift {A} (o : outcome A) : M A := fun s => (o, s).

(** [l[i]] for [0 <= i]. *)
Definition getitem {A} (l : list A) (i : nat) : M A :=
  match l !! i with
  | Some x => mret x
  | None => raise IndexError
  end.

(** ** The OpenCV calls the module makes *)

Module cv2.

Definition startWindowThread : M unit := emit EStartWindowThread.

(** [cv2.VideoCapture(path)] never raises: a source that cannot be opened
    gives a capture that is not opened, whose properties read 0 and whose
    [read()] fails. *)
Definition VideoCapture (input : option video) : M capture :=
  emit EVideoCapture;;
  mret (match input with
        | Some v =>
            {| isOpened := true;
               CAP_PROP_FRAME_WIDTH := v_width v;
               CAP_PROP_FRAME_HEIGHT := v_height v;
               CAP_PROP_FPS := v_fps v;
               stream := v_frames v |}
        | None =>
            {| isOpened := false;
               CAP_PROP_FRAME_WIDTH := 0;
               CAP_PROP_FRAME_HEIGHT := 0;
               CAP_PROP_FPS := 0;
               stream := [] |}
        end).

(** A successful [player.read()]: the decoded frame is a new object. *)
Definition read_frame (img : image) : M ref :=
  frame ← alloc img;
  emit (ERead true (Some frame));;
  mret frame.

(** [player.read()] at the end of the stream. *)
Definition read_end : M unit := emit (ERead false None).

Definition rectangle (frame : ref) (pt1 pt2 : point) (color : colour)
    (thickness : Z) : M unit :=
  draw frame (OpRectangle pt1 pt2 color thickness);;
  emit (ERectangle frame pt1 pt2 color thickness).

Definition putText (frame : ref) (text : string) (org : point) (fontFace : font)
    (fontScale : Z) (color : colour) (thickness : Z) : M unit :=
  draw frame (OpText text org fontFace fontScale color thickness);;
  emit (EPutText frame text org fontFace fontScale color thickness).

(** The window gets the buffer as it is at the call. *)
Definition imshow (winname : string) (frame : ref) : M unit :=
  img ← deref frame;
  emit (EImshow winname frame img).

Definition release : M unit := emit ERelease.
Definition destroyAllWindows : M unit := emit EDestroyAllWindows.
Definition waitKey (delay : Z) : M unit := emit (EWaitKey delay).

End cv2.

(** [logic(faces, width, height)] of the [webcam] module: an opaque sink. *)
Definition logic (faces : list region) (width height : Q) : M unit :=
  emit (ELogic faces width height).

(** ** [ObjectDetection] *)

Section ObjectDetection.

(** [settings.VIDEO_INPUT]: [None] when OpenCV cannot open it. *)
Variable VIDEO_INPUT : option video.
(** [settings.CAM_FMS]: the target frame rate. *)
Variable CAM_FMS : Q.
(** [self.model([frame]).xyxyn[0]]: the rows the pretrained model returns. *)
Variable model : image -> list detection.

Definition get_video_from_file : M capture :=
  cap ← cv2.VideoCapture VIDEO_INPUT;
  set_width (CAP_PROP_FRAME_WIDTH cap);;
  set_height (CAP_PROP_FRAME_HEIGHT cap);;
  assert_ true;;                              (* cap is not None *)
  mret cap.

Definition score_frame (frame : ref) : M (list Q * list cord_row) :=
  img ← deref frame;
  emit (EModel frame);;
  let xyxyn0 := model img in
  let labels := map d_cls xyxyn0 in
  let cord :=
    map (fun d => CordRow (d_x1 d) (d_y1 d) (d_x2 d) (d_y2 d) (d_conf d)) xyxyn0 in
  mret (labels, cord).

(** [int(row[k] * shape)]. *)
Definition to_pixel (norm : Q) (shape : Z) : Z :=
  Py.int (norm * inject_Z shape)%Q.

Definition label_text (n : nat) : string :=
  String.append "Total Targets: " (Py.str n).

(** The body of [for i in range(n)] of [plot_boxes], over the indices left. *)
Fixpoint plot_boxes_for (cord : list cord_row) (n : nat) (x_shape y_shape : Z)
    (frame : ref) (range : list nat) : M unit :=
  match range with
  | [] => mret tt
  | i :: range' =>
      row ← getitem cord i;
      let x1 := to_pixel (row0 row) x_shape in
      let y1 := to_pixel (row1 row) y_shape in
      let x2 := to_pixel (row2 row) x_shape in
      let y2 := to_pixel (row3 row) y_shape in
      let bgr := (0, 0, 255) in
      cv2.rectangle frame (x1, y1) (x2, y2) bgr 1;;
      cv2.putText frame (label_text n) (30, 30) FONT_HERSHEY_SIMPLEX 1
        (0, 255, 0) 2;;
      plot_boxes_for cord n x_shape y_shape frame range'
  end.

Definition plot_boxes (results : list Q * list cord_row) (frame : ref) : M ref :=
  let '(labels, cord) := results in
  let n := length labels in
  img ← deref frame;
  let x_shape := shape1 img in
  let y_shape := shape0 img in
  plot_boxes_for cord n x_shape y_shape frame (seq 0 n);;
  cv2.imshow "video" frame;;
  mret frame.

(** One element of [faces]. *)
Definition face (frame : ref) (x_shape y_shape : Z) (row : cord_row) : region :=
  let x1 := to_pixel (row0 row) x_shape in
  let y1 := to_pixel (row1 row) y_shape in
  let x2 := to_pixel (row2 row) x_shape in
  let y2 := to_pixel (row3 row) y_shape in
  {| r_frame := frame; r_x := x1; r_y := y1; r_w := x2 - x1; r_h := y2 - y1 |}.

(** The frame rate the sampler aims at: [CAM_FMS], or the source's if lower. *)
Definition target_fps (frame_rate : Q) : Q :=
  let fps := CAM_FMS in
  if Py.gt fps frame_rate then frame_rate else fps.

(** [math.floor(frame_rate / fps)]. *)
Definition stride (frame_rate fps : Q) : outcome Z :=
  match Py.truediv frame_rate fps with
  | Ok q => Ok (Py.floor q)
  | Raise e => Raise e
  end.

(** One turn of [while True] for a frame that was read; the result is
    [current_frame] after the turn. *)
Definition loop_body (frame_rate fps : Q) (img : image) (current_frame : Z) : M Z :=
  frame ← cv2.read_frame img;
  let current_frame := current_frame + 1 in
  k ← lift (stride frame_rate fps);
  m ← lift (Py.mod_ current_frame k);
  if negb (m =? 0) then
    cv2.imshow "video" frame;;
    mret current_frame
  else
    results ← score_frame frame;
    let '(_, cord) := results in
    buf ← deref frame;
    let x_shape := shape1 buf in
    let y_shape := shape0 buf in
    let faces := map (face frame x_shape y_shape) cord in
    width ← get_width;
    height ← get_height;
    logic faces width height;;
    _ ← plot_boxes results frame;
    mret current_frame.

(** [while True], over the frames the player still holds. *)
Fixpoint main_loop (frame_rate fps : Q) (pending : list image)
    (current_frame : Z) : M Z :=
  match pending with
  | [] => cv2.read_end;; mret current_frame
  | img :: pending' =>
      current_frame ← loop_body frame_rate fps img current_frame;
      main_loop frame_rate fps pending' current_frame
  end.

(** [__call__]; the result is [current_frame] when the loop is left. *)
Definition call : M Z :=
  cv2.startWindowThread;;
  player ← get_video_from_file;
  assert_ (isOpened player);;
  let frame_rate := CAP_PROP_FPS player in
  let x_shape := Py.int (CAP_PROP_FRAME_WIDTH player) in     (* not used *)
  let y_shape := Py.int (CAP_PROP_FRAME_HEIGHT player) in    (* not used *)
  let fps := target_fps frame_rate in
  let current_frame := 0 in
  current_frame ← main_loop frame_rate fps (stream player) current_frame;
  cv2.release;;
  cv2.destroyAllWindows;;
  cv2.waitKey 10;;
  mret current_frame.

End ObjectDetection.

(** ** What a turn of the loop leaves behind

    The effect of the code above in closed form: the overlays and the events
    of one pass of the loop of [plot_boxes], of a whole scored or unscored
    turn, and of the loop over a stream. *)

Section Effects.

Variable model : image -> list detection.

Definition labels_of (img : image) : list Q := map d_cls (model img).

Definition cord_of (img : image) : list cord_row :=
  map (fun d => CordRow (d_x1 d) (d_y1 d) (d_x2 d) (d_y2 d) (d_conf d)) (model img).

Definition box_corners (x_shape y_shape : Z) (row : cord_row) : point * point :=
  ((to_pixel (row0 row) x_shape, to_pixel (row1 row) y_shape),
   (to_pixel (row2 row) x_shape, to_pixel (row3 row) y_shape)).

Definition box_ops (n : nat) (x_shape y_shape : Z) (row : cord_row) : list draw_op :=
  let '(pt1, pt2) := box_corners x_shape y_shape row in
  [OpRectangle pt1 pt2 (0, 0, 255) 1;
   OpText (label_text n) (30, 30) FONT_HERSHEY_SIMPLEX 1 (0, 255, 0) 2].

Definition box_events (frame : ref) (n : nat) (x_shape y_shape : Z)
    (row : cord_row) : list event :=
  let '(pt1, pt2) := box_corners x_shape y_shape row in
  [ERectangle frame pt1 pt2 (0, 0, 255) 1;
   EPutText frame (label_text n) (30, 30) FONT_HERSHEY_SIMPLEX 1 (0, 255, 0) 2].

Definition paint (img : image) (ops : list draw_op) : image :=
  {| shape0 := shape0 img; shape1 := shape1 img; pixels := pixels img;
     overlays := overlays img ++ ops |}.

(** The buffer after [plot_boxes] for [n] labels and the rows [cord]. *)
Definition rendered (img : image) (n : nat) (cord : list cord_row) : image :=
  paint img (flat_map (box_ops n (shape1 img) (shape0 img)) cord).

Definition faces_of (frame : ref) (img : image) : list region :=
  map (face frame (shape1 img) (shape0 img)) (cord_of img).

(** Is the frame with this count scored, for stride [k]? *)
Definition is_scored (k current_frame : Z) : bool := current_frame mod k =? 0.

(** The buffer a turn leaves for the frame it read. *)
Definition turn_image (k : Z) (current_frame : Z) (img : image) : image :=
  if is_scored k current_frame
  then rendered img (length (labels_of img)) (cord_of img)
  else img.

(** The events of a turn: [current_frame] is the count after the increment. *)
Definition turn_events (k : Z) (width height : Q) (current_frame : Z)
    (frame : ref) (img : image) : list event :=
  if is_scored k current_frame
  then [ERead true (Some frame); EModel frame;
        ELogic (faces_of frame img) width height]
       ++ flat_map (box_events frame (length (labels_of img)) (shape1 img) (shape0 img))
                   (cord_of img)
       ++ [EImshow "video" frame (turn_image k current_frame img)]
  else [ERead true (Some frame); EImshow "video" frame img].

(** The frame objects of a run over [pending], from count [current_frame]. *)
Fixpoint loop_heap (k : Z) (current_frame : Z) (pending : list image) : list image :=
  match pending with
  | [] => []
  | img :: pending' =>
      turn_image k (current_frame + 1) img :: loop_heap k (current_frame + 1) pending'
  end.

(** The events of the turns of a run over [pending]. *)
Fixpoint loop_events (k : Z) (width height : Q) (current_frame : Z) (frame : ref)
    (pending : list image) : list event :=
  match pending with
  | [] => []
  | img :: pending' =>
      turn_events k width height (current_frame + 1) frame img
      ++ loop_events k width height (current_frame + 1) (S frame) pending'
  end.

End Effects.

(** ** Reading a trace *)

(** The frames read, in order. *)
Definition reads (tr : list event) : list ref :=
  flat_map (fun e => match e with ERead true (Some r) => [r] | _ => [] end) tr.

(** The frames given to the detector, in order. *)
Definition scored (tr : list event) : list ref :=
  flat_map (fun e => match e with EModel r => [r] | _ => [] end) tr.

(** What was presented: window, frame, buffer at the time. *)
Definition shown (tr : list event) : list (string * ref * image) :=
  flat_map (fun e => match e with EImshow w r img => [(w, r, img)] | _ => [] end) tr.

(** The calls of the sink. *)
Definition logic_calls (tr : list event) : list (list region * Q * Q) :=
  flat_map (fun e => match e with ELogic f w h => [(f, w, h)] | _ => [] end) tr.

(** The drawing calls on a frame. *)
Definition rectangles (frame : ref) (tr : list event) : list (point * point) :=
  flat_map (fun e => match e with
                     | ERectangle r pt1 pt2 _ _ =>
                         if Nat.eqb r frame then [(pt1, pt2)] else []
                     | _ => [] end) tr.

Definition label_texts (frame : ref) (tr : list event) : list string :=
  flat_map (fun e => match e with
                     | EPutText r text _ _ _ _ _ => if Nat.eqb r frame then [text] else []
                     | _ => [] end) tr.

Definition is_read (e : event) : bool :=
  match e with ERead _ _ => true | _ => false end.

(** The run was refused before any [read()]. *)
Definition rejected_before_streaming {A} (r : outcome A * state) : bool :=
  match r with
  | (Raise _, s) => forallb (fun e => negb (is_read e)) (trace s)
  | (Ok _, _) => false
  end.

(** How often the source was released, and the windows closed. *)
Definition releases (tr : list event) : nat :=
  length (flat_map (fun e => match e with ERelease => [tt] | _ => [] end) tr).

Definition window_closes (tr : list event) : nat :=
  length (flat_map (fun e => match e with EDestroyAllWindows => [tt] | _ => [] end) tr).

(** ** The conversion the specification words: rounding, and back *)

(** [round(norm * shape)]: the formula of the specification. *)
Definition spec_to_pixel (norm : Q) (shape : Z) : Z :=
  Py.round (norm * inject_Z shape)%Q.

(** From a pixel coordinate back to a normalised one. *)
Definition to_norm (px shape : Z) : Q := (inject_Z px / inject_Z shape)%Q.

(** [int(row[k] * shape)] with the rounding of the float product written
    out.  The code multiplies a numpy float32 by a Python int; [fl] maps the
    exact product to the float that the multiplication returns: the product
    itself where it is a float (always so when it is computed in float64, as
    by NumPy 1), the nearest float32 under NumPy 2.  [to_pixel] is the case
    of a product that needs no rounding. *)
Definition to_pixel_fl (fl : Q -> Q) (norm : Q) (shape : Z) : Z :=
  Py.int (fl (norm * inject_Z shape)%Q).

(** What a rounding to floats does, as far as frames go: it keeps the order,
    and the whole numbers from 0 to the dimension are floats, which it leaves
    as they are. *)
Definition rounding_upto (fl : Q -> Q) (shape : Z) : Prop :=
  (forall p q, (p <= q)%Q -> (fl p <= fl q)%Q)
  /\ (forall z, 0 <= z <= shape -> (fl (inject_Z z) == inject_Z z)%Q).

(** A coarse rounding to try things on: to the nearest eighth, halves up. *)
Definition nearest_eighth (q : Q) : Q :=
  (inject_Z (Qfloor (q * 8 + (1 # 2))) / 8)%Q.

(** ** Sample inputs *)

Module Sample.

Definition frame (p : N) : image :=
  {| shape0 := 480; shape1 := 640; pixels := p; overlays := [] |}.

(** A 640x480 source of three frames at the given rate. *)
Definition clip (fps : Q) : video :=
  {| v_width := 640; v_height := 480; v_fps := fps;
     v_frames := [frame 1; frame 2; frame 3] |}.

Definition person : detection :=
  {| d_x1 := 1 # 4; d_y1 := 1 # 4; d_x2 := 7 # 8; d_y2 := 1 # 2;
     d_conf := 9 # 10; d_cls := 0 |}.

(** A source that reports 1280x720 and delivers 640x480 frames. *)
Definition odd_clip : video :=
  {| v_width := 1280; v_height := 720; v_fps := 30;
     v_frames := [frame 1; frame 2; frame 3] |}.

(** A model that finds nothing. *)
Definition no_detections (_ : image) : list detection := [].

(** A model that finds one person in the third frame only. *)
Definition one_person (img : image) : list detection :=
  if N.eqb (pixels img) 3 then [person] else [].

(** A state in which one frame is on the heap and [self] knows the size. *)
Definition streaming : state :=
  {| heap := [frame 1]; trace := [];
     self_width := Some 640%Q; self_height := Some 480%Q |}.

End Sample.

(** * Properties *)

(** ** Running the monad *)

Lemma bind_ok {A B} (m : M A) (f : A -> M B) s a s' :
  m s = (Ok a, s') -> (m ≫= f) s = f a s'.
Proof. intros H. unfold mbind, M_bind. now rewrite H. Qed.

Lemma bind_raise {A B} (m : M A) (f : A -> M B) s e s' :
  m s = (Raise e, s') -> (m ≫= f) s = (Raise e, s').
Proof. intros H. unfold mbind, M_bind. now rewrite H. Qed.

Lemma bind_ret {A B} (a : A) (f : A -> M B) s : (mret a ≫= f) s = f a s.
Proof. reflexivity. Qed.

Lemma getitem_ok {A} (l : list A) i x : l !! i = Some x -> getitem l i = mret x.
Proof. intros H. unfold getitem. now rewrite H. Qed.

Lemma paint_nil img : paint img [] = img.
Proof. destruct img. unfold paint. simpl. now rewrite app_nil_r. Qed.

Lemma paint_paint img ops ops' : paint (paint img ops) ops' = paint img (ops ++ ops').
Proof. unfold paint. simpl. now rewrite app_assoc. Qed.

Lemma deref_ok r s img : heap s !! r = Some img -> deref r s = (Ok img, s).
Proof. intros H. unfold deref. now rewrite H. Qed.

Lemma draw_ok r op s img :
  heap s !! r = Some img ->
  draw r op s =
    (Ok tt, {| heap := <[r := paint img [op]]> (heap s); trace := trace s;
               self_width := self_width s; self_height := self_height s |}).
Proof. intros H. unfold draw. now rewrite H. Qed.

Lemma rectangle_ok r pt1 pt2 c t s img :
  heap s !! r = Some img ->
  cv2.rectangle r pt1 pt2 c t s =
    (Ok tt, {| heap := <[r := paint img [OpRectangle pt1 pt2 c t]]> (heap s);
               trace := trace s ++ [ERectangle r pt1 pt2 c t];
               self_width := self_width s; self_height := self_height s |}).
Proof.
  intros H. unfold cv2.rectangle.
  rewrite (bind_ok _ _ _ _ _ (draw_ok _ _ _ _ H)). reflexivity.
Qed.

Lemma putText_ok r text org f sc c t s img :
  heap s !! r = Some img ->
  cv2.putText r text org f sc c t s =
    (Ok tt, {| heap := <[r := paint img [OpText text org f sc c t]]> (heap s);
               trace := trace s ++ [EPutText r text org f sc c t];
               self_width := self_width s; self_height := self_height s |}).
Proof.
  intros H. unfold cv2.putText.
  rewrite (bind_ok _ _ _ _ _ (draw_ok _ _ _ _ H)). reflexivity.
Qed.

Lemma imshow_ok w r s img :
  heap s !! r = Some img ->
  cv2.imshow w r s =
    (Ok tt, {| heap := heap s; trace := trace s ++ [EImshow w r img];
               self_width := self_width s; self_height := self_height s |}).
Proof.
  intros H. unfold cv2.imshow.
  rewrite (bind_ok _ _ _ _ _ (deref_ok _ _ _ H)). reflexivity.
Qed.

(** ** [plot_boxes] *)

(** The loop of [plot_boxes] over the rows still to draw. *)
Lemma plot_boxes_for_spec rest : forall pre n xs ys r s img,
  heap s !! r = Some img ->
  plot_boxes_for (pre ++ rest) n xs ys r (seq (length pre) (length rest)) s =
    (Ok tt, {| heap := <[r := paint img (flat_map (box_ops n xs ys) rest)]> (heap s);
               trace := trace s ++ flat_map (box_events r n xs ys) rest;
               self_width := self_width s; self_height := self_height s |}).
Proof.
  induction rest as [|row rest IH]; intros pre n xs ys r s img Hr.
  - cbn [length seq plot_boxes_for flat_map].
    rewrite paint_nil, (list_insert_id _ _ _ Hr), app_nil_r.
    now destruct s.
  - pose proof (lookup_lt_Some _ _ _ Hr) as Hlt.
    cbn [length seq plot_boxes_for].
    rewrite (getitem_ok _ _ row) by now apply list_lookup_middle.
    rewrite bind_ret. cbv beta zeta.
    erewrite bind_ok; [|apply rectangle_ok; exact Hr].
    erewrite bind_ok;
      [|apply putText_ok; cbn [heap]; now apply list_lookup_insert_eq].
    cbn [heap trace self_width self_height].
    replace (pre ++ row :: rest) with ((pre ++ [row]) ++ rest)
      by now rewrite <- app_assoc.
    replace (S (length pre)) with (length (pre ++ [row]))
      by (rewrite length_app; simpl; lia).
    erewrite IH;
      [|cbn [heap]; apply list_lookup_insert_eq; now rewrite length_insert].
    cbn [heap trace self_width self_height].
    rewrite !list_insert_insert_eq, !paint_paint, <- !app_assoc.
    reflexivity.
Qed.

(** [plot_boxes] in closed form, for results whose two parts have one length
    (they are the columns of one tensor). *)
Lemma plot_boxes_spec labels cord r s img :
  length labels = length cord ->
  heap s !! r = Some img ->
  plot_boxes (labels, cord) r s =
    (Ok r, {| heap := <[r := rendered img (length labels) cord]> (heap s);
              trace := trace s
                       ++ flat_map (box_events r (length labels) (shape1 img) (shape0 img)) cord
                       ++ [EImshow "video" r (rendered img (length labels) cord)];
              self_width := self_width s; self_height := self_height s |}).
Proof.
  intros Hlen Hr. pose proof (lookup_lt_Some _ _ _ Hr) as Hlt.
  unfold plot_boxes.
  rewrite (bind_ok _ _ _ _ _ (deref_ok _ _ _ Hr)).
  rewrite Hlen at 2.
  erewrite bind_ok; [|apply (plot_boxes_for_spec cord [] _ _ _ _ _ _ Hr)].
  erewrite bind_ok;
    [|apply imshow_ok; cbn [heap]; now apply list_lookup_insert_eq].
  cbn [heap trace self_width self_height]. unfold rendered.
  rewrite <- app_assoc. reflexivity.
Qed.

(** ** One turn of the loop *)

Lemma lift_ok {A B} (a : A) (f : A -> M B) s : (lift (Ok a) ≫= f) s = f a s.
Proof. reflexivity. Qed.

Lemma lift_raise {A B} e (f : A -> M B) s : (lift (Raise e) ≫= f) s = (Raise e, s).
Proof. reflexivity. Qed.

Lemma read_frame_ok img s :
  cv2.read_frame img s =
    (Ok (length (heap s)),
     {| heap := heap s ++ [img];
        trace := trace s ++ [ERead true (Some (length (heap s)))];
        self_width := self_width s; self_height := self_height s |}).
Proof. reflexivity. Qed.

Lemma score_frame_ok model r s img :
  heap s !! r = Some img ->
  score_frame model r s =
    (Ok (labels_of model img, cord_of model img),
     {| heap := heap s; trace := trace s ++ [EModel r];
        self_width := self_width s; self_height := self_height s |}).
Proof.
  intros H. unfold score_frame.
  rewrite (bind_ok _ _ _ _ _ (deref_ok _ _ _ H)). reflexivity.
Qed.

Lemma get_width_ok s w : self_width s = Some w -> get_width s = (Ok w, s).
Proof. intros H. unfold get_width. now rewrite H. Qed.

Lemma get_height_ok s h : self_height s = Some h -> get_height s = (Ok h, s).
Proof. intros H. unfold get_height. now rewrite H. Qed.

Lemma labels_cord_length model img :
  length (labels_of model img) = length (cord_of model img).
Proof. unfold labels_of, cord_of. now rewrite !length_map. Qed.

Lemma mod_ok a k : k <> 0 -> Py.mod_ a k = Ok (a mod k).
Proof. intros H. unfold Py.mod_. now rewrite (proj2 (Z.eqb_neq k 0) H). Qed.

(** A turn, for a stride that is a number other than 0. *)
Lemma loop_body_spec model frame_rate fps k w h img current_frame s :
  stride frame_rate fps = Ok k -> k <> 0 ->
  self_width s = Some w -> self_height s = Some h ->
  loop_body model frame_rate fps img current_frame s =
    (Ok (current_frame + 1),
     {| heap := heap s ++ [turn_image model k (current_frame + 1) img];
        trace := trace s
                 ++ turn_events model k w h (current_frame + 1) (length (heap s)) img;
        self_width := Some w; self_height := Some h |}).
Proof.
  intros Hk Hk0 Hw Hh. unfold loop_body.
  rewrite (bind_ok _ _ _ _ _ (read_frame_ok img s)).
  rewrite Hk, lift_ok, (mod_ok _ _ Hk0), lift_ok.
  unfold turn_events, turn_image, is_scored.
  set (s1 := {| heap := heap s ++ [img] |}).
  assert (Hr : heap s1 !! length (heap s) = Some img)
    by (cbn [heap s1]; now apply list_lookup_middle).
  destruct ((current_frame + 1) mod k =? 0); cbn [negb].
  - rewrite (bind_ok _ _ _ _ _ (score_frame_ok model _ _ _ Hr)).
    erewrite bind_ok; [|apply deref_ok; exact Hr].
    erewrite bind_ok; [|apply get_width_ok; exact Hw].
    erewrite bind_ok; [|apply get_height_ok; exact Hh].
    erewrite bind_ok; [|reflexivity].
    erewrite bind_ok;
      [|apply plot_boxes_spec; [apply labels_cord_length|exact Hr]].
    cbn [heap trace self_width self_height s1 mret M_ret].
    replace (length (heap s)) with (length (heap s) + 0)%nat at 1 by lia.
    rewrite insert_app_r. cbn [insert list_insert].
    rewrite Hw, Hh, <- !app_assoc. reflexivity.
  - rewrite (bind_ok _ _ _ _ _ (imshow_ok "video" _ _ _ Hr)).
    cbn [heap trace self_width self_height s1 mret M_ret].
    rewrite Hw, Hh, <- !app_assoc. reflexivity.
Qed.

(** A turn whose stride cannot be computed, or is 0: the frame is read, then
    the exception leaves the loop. *)
Lemma loop_body_zero model frame_rate fps img current_frame s :
  stride frame_rate fps = Raise ZeroDivisionError \/ stride frame_rate fps = Ok 0 ->
  loop_body model frame_rate fps img current_frame s =
    (Raise ZeroDivisionError,
     {| heap := heap s ++ [img];
        trace := trace s ++ [ERead true (Some (length (heap s)))];
        self_width := self_width s; self_height := self_height s |}).
Proof.
  intros H. unfold loop_body.
  rewrite (bind_ok _ _ _ _ _ (read_frame_ok img s)).
  destruct H as [-> | ->]; reflexivity.
Qed.

(** ** The loop *)

Lemma main_loop_spec model frame_rate fps k w h pending :
  stride frame_rate fps = Ok k -> k <> 0 ->
  forall current_frame s,
  self_width s = Some w -> self_height s = Some h ->
  main_loop model frame_rate fps pending current_frame s =
    (Ok (current_frame + Z.of_nat (length pending)),
     {| heap := heap s ++ loop_heap model k current_frame pending;
        trace := trace s
                 ++ loop_events model k w h current_frame (length (heap s)) pending
                 ++ [ERead false None];
        self_width := Some w; self_height := Some h |}).
Proof.
  intros Hk Hk0.
  induction pending as [|img pending IH]; intros cur s Hw Hh.
  - cbn [main_loop loop_heap loop_events length]. unfold cv2.read_end.
    unfold emit, mbind, M_bind, mret, M_ret. cbn [Z.of_nat app].
    rewrite Z.add_0_r, app_nil_r, Hw, Hh. reflexivity.
  - cbn [main_loop loop_heap loop_events].
    rewrite (bind_ok _ _ _ _ _
               (loop_body_spec model _ _ _ _ _ img cur s Hk Hk0 Hw Hh)).
    rewrite IH by reflexivity.
    cbn [heap trace self_width self_height].
    rewrite length_app, Nat.add_1_r, <- !app_assoc.
    cbn [length app]. rewrite Nat2Z.inj_succ.
    replace (cur + Z.succ (Z.of_nat (length pending)))
      with (cur + 1 + Z.of_nat (length pending)) by lia.
    reflexivity.
Qed.

(** ** A whole run on a source that opens *)

Lemma call_spec v cam model k :
  stride (v_fps v) (target_fps cam (v_fps v)) = Ok k -> k <> 0 ->
  call (Some v) cam model initial =
    (Ok (Z.of_nat (length (v_frames v))),
     {| heap := loop_heap model k 0 (v_frames v);
        trace := [EStartWindowThread; EVideoCapture]
                 ++ loop_events model k (v_width v) (v_height v) 0 0 (v_frames v)
                 ++ [ERead false None; ERelease; EDestroyAllWindows; EWaitKey 10];
        self_width := Some (v_width v); self_height := Some (v_height v) |}).
Proof.
  intros Hk Hk0. unfold call.
  erewrite bind_ok; [|reflexivity].
  erewrite bind_ok; [|reflexivity].
  erewrite bind_ok; [|reflexivity].
  cbv zeta. cbn [CAP_PROP_FPS stream].
  erewrite bind_ok;
    [|apply (main_loop_spec model _ _ k (v_width v) (v_height v) _ Hk Hk0);
      reflexivity].
  cbn [heap trace initial length app Z.add].
  unfold cv2.release, cv2.destroyAllWindows, cv2.waitKey, emit, mbind, M_bind,
    mret, M_ret.
  cbn [heap trace self_width self_height app].
  rewrite <- !app_assoc. reflexivity.
Qed.

(** A run whose stride cannot be computed, or is 0. *)
Lemma call_zero v cam model :
  stride (v_fps v) (target_fps cam (v_fps v)) = Raise ZeroDivisionError
  \/ stride (v_fps v) (target_fps cam (v_fps v)) = Ok 0 ->
  call (Some v) cam model initial =
    match v_frames v with
    | [] =>
        (Ok 0,
         {| heap := [];
            trace := [EStartWindowThread; EVideoCapture; ERead false None;
                      ERelease; EDestroyAllWindows; EWaitKey 10];
            self_width := Some (v_width v); self_height := Some (v_height v) |})
    | img :: _ =>
        (Raise ZeroDivisionError,
         {| heap := [img];
            trace := [EStartWindowThread; EVideoCapture; ERead true (Some 0%nat)];
            self_width := Some (v_width v); self_height := Some (v_height v) |})
    end.
Proof.
  intros H. unfold call.
  erewrite bind_ok; [|reflexivity].
  erewrite bind_ok; [|reflexivity].
  erewrite bind_ok; [|reflexivity].
  cbv zeta. cbn [CAP_PROP_FPS stream].
  destruct (v_frames v) as [|img rest].
  - reflexivity.
  - cbn [main_loop].
    erewrite bind_raise.
    2:{ erewrite bind_raise; [reflexivity|]. now apply loop_body_zero. }
    reflexivity.
Qed.

(** ** The stride *)

Lemma stride_clamped cam frame_rate :
  (0 < frame_rate)%Q -> (frame_rate < cam)%Q ->
  target_fps cam frame_rate = frame_rate /\ stride frame_rate frame_rate = Ok 1.
Proof.
  intros Hpos Hlt. split.
  - unfold target_fps, Py.gt.
    destruct (Qle_bool cam frame_rate) eqn:E; [|reflexivity].
    apply Qle_bool_iff in E. exfalso. now apply (Qlt_not_le _ _ Hlt).
  - unfold stride, Py.truediv, Py.is_zero.
    destruct (Qeq_bool frame_rate 0) eqn:E.
    + apply Qeq_bool_iff in E. rewrite E in Hpos. now apply Qlt_irrefl in Hpos.
    + unfold Py.floor. f_equal.
      assert (Hq : (frame_rate / frame_rate == 1)%Q).
      { apply Qmult_inv_r. intros E0. rewrite E0 in Hpos.
        now apply Qlt_irrefl in Hpos. }
      now rewrite Hq.
Qed.

Lemma stride_zero cam frame_rate :
  (cam == 0 \/ frame_rate == 0)%Q -> (0 <= frame_rate)%Q ->
  stride frame_rate (target_fps cam frame_rate) = Raise ZeroDivisionError
  \/ stride frame_rate (target_fps cam frame_rate) = Ok 0.
Proof.
  intros Hz Hnn.
  assert (Hfr : Py.gt cam frame_rate = true -> (frame_rate == 0)%Q).
  { unfold Py.gt. intros Hgt. destruct Hz as [Hc | Hf]; [|exact Hf].
    destruct (Qle_bool cam frame_rate) eqn:E; [discriminate|].
    exfalso. assert (Hle : (cam <= frame_rate)%Q) by now rewrite Hc.
    apply Qle_bool_iff in Hle. congruence. }
  unfold target_fps, stride, Py.truediv, Py.is_zero.
  destruct (Py.gt cam frame_rate).
  - left. rewrite (proj2 (Qeq_bool_iff _ _) (Hfr eq_refl)). reflexivity.
  - destruct (Qeq_bool cam 0) eqn:E; [now left|right].
    destruct Hz as [Hc | Hf].
    + apply Qeq_bool_iff in Hc. congruence.
    + unfold Py.floor. f_equal.
      assert (Hq : (frame_rate / cam == 0)%Q).
      { rewrite Hf. unfold Qdiv. apply Qmult_0_l. }
      now rewrite Hq.
Qed.

Lemma stride_positive cam frame_rate :
  (0 < cam)%Q -> (0 < frame_rate)%Q ->
  exists k, stride frame_rate (target_fps cam frame_rate) = Ok k /\ 1 <= k.
Proof.
  intros Hc Hf.
  assert (Hfps : (0 < target_fps cam frame_rate)%Q
                 /\ (target_fps cam frame_rate <= frame_rate)%Q).
  { unfold target_fps, Py.gt.
    destruct (Qle_bool cam frame_rate) eqn:E; cbn [negb].
    - apply Qle_bool_iff in E. now split.
    - split; [exact Hf|apply Qle_refl]. }
  destruct Hfps as [Hpos Hle].
  set (fps := target_fps cam frame_rate) in *.
  unfold stride, Py.truediv, Py.is_zero.
  destruct (Qeq_bool fps 0) eqn:E.
  - apply Qeq_bool_iff in E. rewrite E in Hpos. now apply Qlt_irrefl in Hpos.
  - eexists. split; [reflexivity|].
    unfold Py.floor. change 1 with (Qfloor 1).
    apply Qfloor_resp_le. apply Qle_shift_div_l; [exact Hpos|].
    now rewrite Qmult_1_l.
Qed.

(** ** Reading the trace of a run *)

Section Observers.

Context {B : Type} (f : event -> list B).
Hypothesis f_rectangle : forall r pt1 pt2 c t, f (ERectangle r pt1 pt2 c t) = [].
Hypothesis f_putText : forall r text org fnt sc c t,
  f (EPutText r text org fnt sc c t) = [].

(** An observer that ignores the drawing calls sees nothing in them. *)
Lemma flat_map_box_events r n xs ys cord :
  flat_map f (flat_map (box_events r n xs ys) cord) = [].
Proof.
  induction cord as [|row cord IH]; [reflexivity|].
  cbn [flat_map]. rewrite flat_map_app, IH.
  unfold box_events. destruct (box_corners xs ys row) as [pt1 pt2].
  cbn [flat_map]. now rewrite f_rectangle, f_putText.
Qed.

End Observers.

Section Run.

Variable model : image -> list detection.
Variable k : Z.
Variables w h : Q.

Lemma reads_turn c r img : reads (turn_events model k w h c r img) = [r].
Proof.
  unfold turn_events, reads. destruct (is_scored k c); [|reflexivity].
  rewrite !flat_map_app, flat_map_box_events by reflexivity. reflexivity.
Qed.

Lemma scored_turn c r img :
  scored (turn_events model k w h c r img) = if is_scored k c then [r] else [].
Proof.
  unfold turn_events, scored. destruct (is_scored k c); [|reflexivity].
  rewrite !flat_map_app, flat_map_box_events by reflexivity. reflexivity.
Qed.

Lemma shown_turn c r img :
  shown (turn_events model k w h c r img)
  = [("video"%string, r, turn_image model k c img)].
Proof.
  unfold turn_events, shown, turn_image.
  destruct (is_scored k c); [|reflexivity].
  rewrite !flat_map_app, flat_map_box_events by reflexivity. reflexivity.
Qed.

Lemma logic_calls_turn c r img :
  logic_calls (turn_events model k w h c r img)
  = if is_scored k c then [(faces_of model r img, w, h)] else [].
Proof.
  unfold turn_events, logic_calls. destruct (is_scored k c); [|reflexivity].
  rewrite !flat_map_app, flat_map_box_events by reflexivity. reflexivity.
Qed.

Lemma reads_loop pending : forall c r,
  reads (loop_events model k w h c r pending) = seq r (length pending).
Proof.
  induction pending as [|img pending IH]; intros c r; [reflexivity|].
  cbn [loop_events length seq]. unfold reads in *.
  rewrite flat_map_app, IH. fold (reads (turn_events model k w h (c + 1) r img)).
  now rewrite reads_turn.
Qed.

(** In a run the count of a frame is its name plus one. *)
Lemma scored_loop pending : forall r,
  scored (loop_events model k w h (Z.of_nat r) r pending)
  = List.filter (fun i => is_scored k (Z.of_nat i + 1)) (seq r (length pending)).
Proof.
  induction pending as [|img pending IH]; intros r; [reflexivity|].
  cbn [loop_events length seq List.filter]. unfold scored in *.
  rewrite flat_map_app.
  replace (Z.of_nat r + 1) with (Z.of_nat (S r)) by lia.
  rewrite IH. fold (scored (turn_events model k w h (Z.of_nat (S r)) r img)).
  rewrite scored_turn.
  replace (Z.of_nat r + 1) with (Z.of_nat (S r)) by lia.
  now destruct (is_scored k (Z.of_nat (S r))).
Qed.

Lemma shown_loop pending : forall r,
  shown (loop_events model k w h (Z.of_nat r) r pending)
  = imap (fun i img =>
            ("video"%string, (r + i)%nat,
             turn_image model k (Z.of_nat (r + i) + 1) img)) pending.
Proof.
  induction pending as [|img pending IH]; intros r; [reflexivity|].
  cbn [loop_events]. rewrite imap_cons. unfold shown in *.
  rewrite flat_map_app.
  replace (Z.of_nat r + 1) with (Z.of_nat (S r)) by lia.
  rewrite IH. fold (shown (turn_events model k w h (Z.of_nat (S r)) r img)).
  rewrite shown_turn, Nat.add_0_r.
  replace (Z.of_nat r + 1) with (Z.of_nat (S r)) by lia.
  cbn [app]. f_equal. apply imap_ext. intros i x _. cbn.
  now rewrite Nat.add_succ_r.
Qed.

Lemma logic_calls_loop_length pending : forall c r,
  length (logic_calls (loop_events model k w h c r pending))
  = length (scored (loop_events model k w h c r pending)).
Proof.
  induction pending as [|img pending IH]; intros c r; [reflexivity|].
  cbn [loop_events]. unfold logic_calls, scored in *.
  rewrite !flat_map_app, !length_app, IH. f_equal.
  fold (logic_calls (turn_events model k w h (c + 1) r img)).
  fold (scored (turn_events model k w h (c + 1) r img)).
  rewrite logic_calls_turn, scored_turn. now destruct (is_scored k (c + 1)).
Qed.

(** The events of the turn that reads the frame at a position. *)
Lemma loop_events_turn pending : forall c r i img,
  pending !! i = Some img ->
  exists pre post,
    loop_events model k w h c r pending
    = pre ++ turn_events model k w h (c + 1 + Z.of_nat i) (r + i) img ++ post.
Proof.
  induction pending as [|x pending IH]; intros c r i img Hi; [discriminate|].
  destruct i as [|i]; cbn [loop_events].
  - injection Hi as ->. exists [], (loop_events model k w h (c + 1) (S r) pending).
    now rewrite Z.add_0_r, Nat.add_0_r.
  - destruct (IH (c + 1) (S r) i img Hi) as (pre & post & E).
    exists (turn_events model k w h (c + 1) r x ++ pre), post.
    rewrite E, <- app_assoc.
    replace (c + 1 + 1 + Z.of_nat i) with (c + 1 + Z.of_nat (S i)) by lia.
    now rewrite Nat.add_succ_r.
Qed.

Lemma loop_heap_length pending : forall c,
  length (loop_heap model k c pending) = length pending.
Proof.
  induction pending as [|x pending IH]; intros c; [reflexivity|].
  cbn [loop_heap length]. now rewrite IH.
Qed.

End Run.

Lemma reads_run l :
  reads ([EStartWindowThread; EVideoCapture] ++ l
         ++ [ERead false None; ERelease; EDestroyAllWindows; EWaitKey 10])
  = reads l.
Proof.
  unfold reads. rewrite !flat_map_app. cbn [flat_map app]. apply app_nil_r.
Qed.

Lemma scored_run l :
  scored ([EStartWindowThread; EVideoCapture] ++ l
          ++ [ERead false None; ERelease; EDestroyAllWindows; EWaitKey 10])
  = scored l.
Proof.
  unfold scored. rewrite !flat_map_app. cbn [flat_map app]. apply app_nil_r.
Qed.

Lemma shown_run l :
  shown ([EStartWindowThread; EVideoCapture] ++ l
         ++ [ERead false None; ERelease; EDestroyAllWindows; EWaitKey 10])
  = shown l.
Proof.
  unfold shown. rewrite !flat_map_app. cbn [flat_map app]. apply app_nil_r.
Qed.

Lemma logic_calls_run l :
  logic_calls ([EStartWindowThread; EVideoCapture] ++ l
               ++ [ERead false None; ERelease; EDestroyAllWindows; EWaitKey 10])
  = logic_calls l.
Proof.
  unfold logic_calls. rewrite !flat_map_app. cbn [flat_map app]. apply app_nil_r.
Qed.

Lemma filter_all {A} (p : A -> bool) l :
  (forall x, p x = true) -> List.filter p l = l.
Proof.
  intros H. induction l as [|x l IH]; [reflexivity|].
  cbn [List.filter]. now rewrite H, IH.
Qed.

Lemma shown_names {A} (l : list A) : forall (g : nat -> A -> image) r,
  map (fun x : string * nat * image => snd (fst x))
      (imap (fun i a => ("video"%string, (r + i)%nat, g i a)) l)
  = seq r (length l).
Proof.
  induction l as [|a l IH]; intros g r; [reflexivity|].
  rewrite imap_cons. cbn [map length seq fst snd]. rewrite Nat.add_0_r. f_equal.
  rewrite <- (IH (fun i => g (S i)) (S r)). f_equal.
  apply imap_ext. intros i x _. cbn. now rewrite Nat.add_succ_r.
Qed.

(** * The claims *)

(** ** The sampler *)

(** C1, as the code has it: with a target rate of 0 or a source rate of 0
    nothing is checked before the loop.  The first frame is read and the
    [ZeroDivisionError] is raised in the first turn of the loop, before the
    frame is shown or scored; a source without frames ends the run normally. *)
Theorem C1_zero_rate_raises_inside_loop v cam model :
  (cam == 0 \/ v_fps v == 0)%Q -> (0 <= v_fps v)%Q ->
  call (Some v) cam model initial =
    match v_frames v with
    | [] =>
        (Ok 0,
         {| heap := [];
            trace := [EStartWindowThread; EVideoCapture; ERead false None;
                      ERelease; EDestroyAllWindows; EWaitKey 10];
            self_width := Some (v_width v); self_height := Some (v_height v) |})
    | img :: _ =>
        (Raise ZeroDivisionError,
         {| heap := [img];
            trace := [EStartWindowThread; EVideoCapture; ERead true (Some 0%nat)];
            self_width := Some (v_width v); self_height := Some (v_height v) |})
    end.
Proof.
  intros Hz Hnn. apply call_zero. now apply stride_zero.
Qed.

Lemma C1_zero_rate_witness :
  (0 == 0 \/ v_fps (Sample.clip 30) == 0)%Q /\ (0 <= v_fps (Sample.clip 30))%Q /\
  call (Some (Sample.clip 30)) 0 Sample.no_detections initial =
    (Raise ZeroDivisionError,
     {| heap := [Sample.frame 1];
        trace := [EStartWindowThread; EVideoCapture; ERead true (Some 0%nat)];
        self_width := Some 640%Q; self_height := Some 480%Q |}).
Proof.
  split; [left; reflexivity|].
  split; [apply Qle_bool_iff; reflexivity|].
  apply (C1_zero_rate_raises_inside_loop (Sample.clip 30) 0 Sample.no_detections).
  - left; reflexivity.
  - apply Qle_bool_iff; reflexivity.
Defined.

(** C1, as stated, fails: with a target rate of 0 (or a source rate of 0) and
    a source that has a frame, the run is not refused before the first
    [read()]; it raises [ZeroDivisionError] after it. *)
Lemma C1_not_rejected_before_streaming :
  rejected_before_streaming
    (call (Some (Sample.clip 30)) 0 Sample.no_detections initial) = false
  /\ fst (call (Some (Sample.clip 30)) 0 Sample.no_detections initial)
     = Raise ZeroDivisionError
  /\ rejected_before_streaming
       (call (Some (Sample.clip 0)) 10 Sample.no_detections initial) = false
  /\ fst (call (Some (Sample.clip 0)) 10 Sample.no_detections initial)
     = Raise ZeroDivisionError.
Proof. repeat split; vm_compute; reflexivity. Qed.

(** C2: at 30 frames per second from the source and a target of 10 the
    stride is 3; counting the frames read from 1, the detector gets exactly
    those whose count is a multiple of 3, the others are shown as they were
    read; the counter starts at 0, goes up by one per frame read and is never
    reset, so that it ends at the number of frames read. *)
Theorem C2_stride_three width height frames model :
  stride 30 (target_fps 10 30) = Ok 3
  /\ exists st,
       call (Some (Video width height 30 frames)) 10 model initial
       = (Ok (Z.of_nat (length frames)), st)
       /\ reads (trace st) = seq 0 (length frames)
       /\ scored (trace st)
          = List.filter (fun r => (Z.of_nat r + 1) mod 3 =? 0) (seq 0 (length frames))
       /\ shown (trace st)
          = imap (fun r img =>
                    ("video"%string, r,
                     if (Z.of_nat r + 1) mod 3 =? 0
                     then rendered img (length (labels_of model img)) (cord_of model img)
                     else img)) frames.
Proof.
  assert (Hk : stride 30 (target_fps 10 30) = Ok 3) by reflexivity.
  split; [exact Hk|]. eexists. split.
  - apply (call_spec (Video width height 30 frames) 10 model 3 Hk). discriminate.
  - cbn [trace v_frames v_width v_height].
    rewrite reads_run, scored_run, shown_run.
    rewrite reads_loop, (scored_loop model 3 _ _ frames 0),
      (shown_loop model 3 _ _ frames 0).
    repeat split; reflexivity.
Qed.

(** C5: when the target rate is above the source's (which is positive) the
    target becomes the source's rate, the stride is 1, and every frame read
    goes to the detector. *)
Theorem C5_target_above_source v cam model :
  (0 < v_fps v)%Q -> (v_fps v < cam)%Q ->
  target_fps cam (v_fps v) = v_fps v
  /\ stride (v_fps v) (target_fps cam (v_fps v)) = Ok 1
  /\ exists st,
       call (Some v) cam model initial = (Ok (Z.of_nat (length (v_frames v))), st)
       /\ reads (trace st) = seq 0 (length (v_frames v))
       /\ scored (trace st) = reads (trace st).
Proof.
  intros Hpos Hlt. destruct (stride_clamped cam (v_fps v) Hpos Hlt) as [Ht Hs].
  assert (Hk : stride (v_fps v) (target_fps cam (v_fps v)) = Ok 1)
    by now rewrite Ht.
  split; [exact Ht|]. split; [exact Hk|]. eexists. split.
  - apply (call_spec v cam model 1 Hk). discriminate.
  - cbn [trace]. rewrite reads_run, scored_run, reads_loop.
    split; [reflexivity|].
    rewrite (scored_loop model 1 _ _ (v_frames v) 0). apply filter_all.
    intros x. unfold is_scored. now rewrite Z.mod_1_r.
Qed.

Lemma C5_target_above_source_witness :
  (0 < v_fps (Sample.clip 30))%Q /\ (v_fps (Sample.clip 30) < 60)%Q /\
  target_fps 60 (v_fps (Sample.clip 30)) = v_fps (Sample.clip 30)
  /\ stride (v_fps (Sample.clip 30)) (target_fps 60 (v_fps (Sample.clip 30))) = Ok 1
  /\ exists st,
       call (Some (Sample.clip 30)) 60 Sample.one_person initial
       = (Ok (Z.of_nat (length (v_frames (Sample.clip 30)))), st)
       /\ reads (trace st) = seq 0 (length (v_frames (Sample.clip 30)))
       /\ scored (trace st) = reads (trace st).
Proof.
  split; [reflexivity|]. split; [reflexivity|].
  apply (C5_target_above_source (Sample.clip 30) 60 Sample.one_person);
    reflexivity.
Defined.

(** ** Normalised boxes to pixels *)

Lemma to_pixel_floor x shape :
  (0 <= x)%Q -> 0 <= shape -> to_pixel x shape = Qfloor (x * inject_Z shape).
Proof.
  intros Hx Hs. unfold to_pixel, Py.int. destruct x as [n d].
  unfold Qle in Hx. cbn in Hx. cbn [Qmult Qnum Qden inject_Z Qfloor].
  apply Z.quot_div_nonneg; lia.
Qed.

Lemma scaled_le x y shape :
  (x <= y)%Q -> 0 <= shape -> (x * inject_Z shape <= y * inject_Z shape)%Q.
Proof.
  intros Hxy Hs. apply Qmult_le_compat_r; [exact Hxy|].
  unfold Qle. cbn. lia.
Qed.

Lemma int_floor q : (0 <= q)%Q -> Py.int q = Qfloor q.
Proof.
  destruct q as [n d]. unfold Qle, Py.int. cbn. intros H.
  apply Z.quot_div_nonneg; lia.
Qed.

Lemma inject_Z_le a b : a <= b -> (inject_Z a <= inject_Z b)%Q.
Proof. intros H. unfold Qle. cbn. lia. Qed.

Lemma inject_Z_lt a b : a < b -> (inject_Z a < inject_Z b)%Q.
Proof. intros H. unfold Qlt. cbn. lia. Qed.

Lemma inject_Z_le_inv a b : (inject_Z a <= inject_Z b)%Q -> a <= b.
Proof. unfold Qle. cbn. lia. Qed.

Lemma nearest_eighth_rounding shape : rounding_upto nearest_eighth shape.
Proof.
  split.
  - intros p q Hpq. unfold nearest_eighth.
    apply Qmult_le_compat_r; [|discriminate].
    apply inject_Z_le, Qfloor_resp_le.
    apply Qplus_le_l. apply Qmult_le_compat_r; [exact Hpq|discriminate].
  - intros z _. unfold nearest_eighth.
    assert (E : Qfloor (inject_Z z * 8 + (1 # 2)) = z * 8).
    { unfold Qfloor, Qplus, Qmult, inject_Z. cbn.
      Z.to_euclidean_division_equations. lia. }
    rewrite E. unfold Qeq, Qdiv, Qmult, Qinv, inject_Z. cbn. lia.
Qed.

(** [to_pixel] is [to_pixel_fl] for a product that is not rounded. *)
Lemma to_pixel_unrounded x shape :
  to_pixel x shape = to_pixel_fl (fun q => q) x shape.
Proof. reflexivity. Qed.

(** C3, as the code has it: a pixel coordinate is [int(norm * shape)], the
    float product cut toward zero, not rounded to the nearest.  For a
    coordinate in [0, 1] and a positive dimension, whatever the rounding of
    the float product, the pixel is the floor of the exact product or, when
    the float product is rounded up to the next whole number, one more; going
    back by [px / shape] is therefore not exact: it gives a value less than
    one pixel away from the coordinate, on either side.  It gives the
    coordinate itself when [norm * shape] is a whole number, and a value at
    most the coordinate when the float product is the exact one. *)
Theorem C3_pixel_is_truncation fl x shape :
  rounding_upto fl shape ->
  (0 <= x)%Q -> (x <= 1)%Q -> 0 < shape ->
  to_pixel_fl fl x shape = Py.int (fl (x * inject_Z shape)%Q)
  /\ Py.floor (x * inject_Z shape)%Q <= to_pixel_fl fl x shape
     <= Py.floor (x * inject_Z shape)%Q + 1
  /\ (to_norm (to_pixel_fl fl x shape - 1) shape < x)%Q
  /\ (x < to_norm (to_pixel_fl fl x shape + 1) shape)%Q
  /\ (forall z, (x * inject_Z shape == inject_Z z)%Q ->
        to_pixel_fl fl x shape = z /\ (to_norm z shape == x)%Q)
  /\ ((fl (x * inject_Z shape) == x * inject_Z shape)%Q ->
        to_pixel_fl fl x shape = Py.floor (x * inject_Z shape)%Q
        /\ (to_norm (to_pixel_fl fl x shape) shape <= x)%Q).
Proof.
  intros [Hmono Hwhole] Hx0 Hx1 Hs.
  assert (Hpos : (0 < inject_Z shape)%Q) by (unfold Qlt; cbn; lia).
  assert (Hne : ~ (inject_Z shape == 0)%Q)
    by (intros E; rewrite E in Hpos; now apply Qlt_irrefl in Hpos).
  unfold to_pixel_fl, Py.floor, to_norm.
  set (p := (x * inject_Z shape)%Q).
  assert (Hp0 : (0 <= p)%Q).
  { unfold p. rewrite <- (Qmult_0_l (inject_Z shape)). apply scaled_le; [exact Hx0|lia]. }
  assert (Hp1 : (p <= inject_Z shape)%Q).
  { unfold p. rewrite <- (Qmult_1_l (inject_Z shape)) at 2.
    apply scaled_le; [exact Hx1|lia]. }
  pose proof (Qfloor_le p) as Hn1. pose proof (Qlt_floor p) as Hn2.
  set (n := Qfloor p) in *.
  assert (Hn0 : 0 <= n)
    by (change 0 with (Qfloor 0); now apply Qfloor_resp_le).
  assert (Hns : n <= shape)
    by (rewrite <- (Qfloor_Z shape); now apply Qfloor_resp_le).
  assert (Hlo : (inject_Z n <= fl p)%Q).
  { rewrite <- (Hwhole n) by lia. now apply Hmono. }
  assert (Hhi : (fl p <= inject_Z (n + 1))%Q).
  { destruct (Z.eq_dec n shape) as [E | E].
    - apply (Qle_trans _ (inject_Z n)); [|apply inject_Z_le; lia].
      rewrite <- (Hwhole n) by lia. apply Hmono. now rewrite E.
    - rewrite <- (Hwhole (n + 1)) by lia. apply Hmono. now apply Qlt_le_weak. }
  assert (Hint : Py.int (fl p) = Qfloor (fl p)).
  { apply int_floor. apply (Qle_trans _ (inject_Z n)); [now apply inject_Z_le|exact Hlo]. }
  assert (Hpx : n <= Qfloor (fl p) <= n + 1).
  { split.
    - rewrite <- (Qfloor_Z n). now apply Qfloor_resp_le.
    - rewrite <- (Qfloor_Z (n + 1)). now apply Qfloor_resp_le. }
  rewrite Hint.
  split; [reflexivity|]. split; [exact Hpx|]. split; [|split; [|split]].
  - apply Qlt_shift_div_r; [exact Hpos|]. fold p.
    destruct (Qlt_le_dec (inject_Z n) p) as [Hlt | Hle].
    + apply (Qle_lt_trans _ (inject_Z n)); [apply inject_Z_le; lia|exact Hlt].
    + assert (Hfl : (fl p <= inject_Z n)%Q).
      { rewrite <- (Hwhole n) by lia. now apply Hmono. }
      apply Qfloor_resp_le in Hfl. rewrite Qfloor_Z in Hfl.
      apply (Qlt_le_trans _ (inject_Z n)); [|exact Hn1].
      apply inject_Z_lt. lia.
  - apply Qlt_shift_div_l; [exact Hpos|]. fold p.
    apply (Qlt_le_trans _ (inject_Z (n + 1))); [exact Hn2|].
    apply inject_Z_le. lia.
  - intros z Hz.
    assert (Hz0 : 0 <= z <= shape).
    { split; apply inject_Z_le_inv; now rewrite <- Hz. }
    assert (Hfz : (fl p == inject_Z z)%Q).
    { rewrite <- (Hwhole z Hz0). apply Qle_antisym; apply Hmono; rewrite Hz;
        apply Qle_refl. }
    split.
    + rewrite Hfz. apply Qfloor_Z.
    + rewrite <- Hz. unfold p. now apply Qdiv_mult_l.
  - intros Hex. split.
    + now rewrite Hex.
    + apply Qle_shift_div_r; [exact Hpos|]. fold p. rewrite Hex. exact Hn1.
Qed.

Lemma C3_pixel_is_truncation_witness :
  rounding_upto nearest_eighth 4 /\
  (0 <= 127 # 512)%Q /\ (127 # 512 <= 1)%Q /\ 0 < 4 /\
  to_pixel_fl nearest_eighth (127 # 512) 4 = 1
  /\ Py.floor ((127 # 512) * inject_Z 4)%Q = 0
  /\ (to_norm (to_pixel_fl nearest_eighth (127 # 512) 4 - 1) 4 < 127 # 512)%Q
  /\ (127 # 512 < to_norm (to_pixel_fl nearest_eighth (127 # 512) 4 + 1) 4)%Q.
Proof.
  split; [apply nearest_eighth_rounding|].
  split; [discriminate|]. split; [discriminate|]. split; [lia|].
  destruct (C3_pixel_is_truncation nearest_eighth (127 # 512) 4
              (nearest_eighth_rounding 4))
    as (_ & _ & Hlo & Hhi & _); [discriminate|discriminate|lia|].
  split; [reflexivity|]. split; [reflexivity|]. split; [exact Hlo|exact Hhi].
Defined.

(** C3, as stated, fails: the normalised coordinate 7/8 in a dimension of 2
    pixels becomes pixel 1, where rounding gives 2, and going back from
    pixel 1 gives 1/2, not 7/8. *)
Lemma C3_not_rounded_not_exact :
  to_pixel (7 # 8) 2 = 1
  /\ spec_to_pixel (7 # 8) 2 = 2
  /\ to_pixel (7 # 8) 2 <> spec_to_pixel (7 # 8) 2
  /\ ~ (to_norm (to_pixel (7 # 8) 2) 2 == 7 # 8)%Q.
Proof. repeat split; vm_compute; discriminate. Qed.

(** ** The renderer *)

Lemma rectangles_box_events r n xs ys cord :
  rectangles r (flat_map (box_events r n xs ys) cord) = map (box_corners xs ys) cord.
Proof.
  induction cord as [|row cord IH]; [reflexivity|].
  cbn [flat_map map]. unfold rectangles in *. rewrite flat_map_app, IH.
  unfold box_events. destruct (box_corners xs ys row) as [pt1 pt2].
  cbn [flat_map app]. now rewrite Nat.eqb_refl.
Qed.

Lemma label_texts_box_events r n xs ys cord :
  label_texts r (flat_map (box_events r n xs ys) cord)
  = repeat (label_text n) (length cord).
Proof.
  induction cord as [|row cord IH]; [reflexivity|].
  cbn [flat_map length repeat]. unfold label_texts in *. rewrite flat_map_app, IH.
  unfold box_events. destruct (box_corners xs ys row) as [pt1 pt2].
  cbn [flat_map app]. now rewrite Nat.eqb_refl.
Qed.

(** What [plot_boxes] draws for [n] detections: [n] rectangles, one per row,
    and the label [n] times, once per row: no label when there is no row. *)
Lemma plot_boxes_draws lbls cord frame s img :
  length lbls = length cord ->
  heap s !! frame = Some img ->
  exists s',
    plot_boxes (lbls, cord) frame s = (Ok frame, s')
    /\ rectangles frame (trace s')
       = rectangles frame (trace s) ++ map (box_corners (shape1 img) (shape0 img)) cord
    /\ label_texts frame (trace s')
       = label_texts frame (trace s)
         ++ repeat (label_text (length cord)) (length cord).
Proof.
  intros Hlen Hr. eexists. split; [apply (plot_boxes_spec _ _ _ _ _ Hlen Hr)|].
  cbn [trace]. unfold rectangles, label_texts. rewrite !flat_map_app.
  fold (rectangles frame (flat_map (box_events frame (length lbls) (shape1 img) (shape0 img)) cord)).
  fold (label_texts frame (flat_map (box_events frame (length lbls) (shape1 img) (shape0 img)) cord)).
  rewrite rectangles_box_events, label_texts_box_events, Hlen.
  cbn [flat_map]. now rewrite !app_nil_r.
Qed.

(** C4, where the code departs from it: for a scored frame with an empty
    batch [plot_boxes] draws nothing at all, neither a rectangle nor the
    label "Total Targets: 0", and shows the frame as it was read. *)
Theorem C4_empty_batch_draws_no_label s frame img :
  heap s !! frame = Some img ->
  plot_boxes ([], []) frame s =
    (Ok frame,
     {| heap := heap s; trace := trace s ++ [EImshow "video" frame img];
        self_width := self_width s; self_height := self_height s |}).
Proof.
  intros Hr. rewrite (plot_boxes_spec [] [] frame s img eq_refl Hr).
  unfold rendered. cbn [flat_map length app].
  now rewrite paint_nil, (list_insert_id _ _ _ Hr).
Qed.

Lemma C4_empty_batch_witness :
  heap Sample.streaming !! 0%nat = Some (Sample.frame 1) /\
  plot_boxes ([], []) 0%nat Sample.streaming =
    (Ok 0%nat,
     {| heap := [Sample.frame 1];
        trace := [EImshow "video" 0%nat (Sample.frame 1)];
        self_width := Some 640%Q; self_height := Some 480%Q |})
  /\ label_texts 0%nat [EImshow "video" 0%nat (Sample.frame 1)] = [].
Proof.
  split; [reflexivity|]. split; [|reflexivity].
  apply (C4_empty_batch_draws_no_label Sample.streaming 0%nat (Sample.frame 1)).
  reflexivity.
Defined.

(** ** The sink *)

(** C6: a turn that scores its frame calls the sink exactly once, with the
    regions of all the rows the model returned for that frame, as many as
    there are rows: none for an empty batch, and the call is made all the
    same. *)
Theorem C6_sink_called_once model frame_rate fps k w h img current_frame s :
  stride frame_rate fps = Ok k -> k <> 0 ->
  is_scored k (current_frame + 1) = true ->
  self_width s = Some w -> self_height s = Some h ->
  exists s',
    loop_body model frame_rate fps img current_frame s = (Ok (current_frame + 1), s')
    /\ logic_calls (trace s')
       = logic_calls (trace s)
         ++ [(map (face (length (heap s)) (shape1 img) (shape0 img)) (cord_of model img),
              w, h)]
    /\ length (map (face (length (heap s)) (shape1 img) (shape0 img)) (cord_of model img))
       = length (model img).
Proof.
  intros Hk Hk0 Hsc Hw Hh. eexists. split.
  - now apply (loop_body_spec model frame_rate fps k w h).
  - cbn [trace]. split.
    + unfold logic_calls at 1. rewrite flat_map_app.
      fold (logic_calls (trace s)).
      fold (logic_calls (turn_events model k w h (current_frame + 1) (length (heap s)) img)).
      now rewrite logic_calls_turn, Hsc.
    + unfold cord_of. now rewrite !length_map.
Qed.

Lemma C6_sink_called_once_witness :
  stride 30 30 = Ok 1 /\ 1 <> 0 /\ is_scored 1 (0 + 1) = true /\
  self_width Sample.streaming = Some 640%Q /\
  self_height Sample.streaming = Some 480%Q /\
  exists s',
    loop_body Sample.no_detections 30 30 (Sample.frame 2) 0 Sample.streaming
    = (Ok (0 + 1), s')
    /\ logic_calls (trace s') = [([], 640%Q, 480%Q)]
    /\ length (@nil region) = length (Sample.no_detections (Sample.frame 2)).
Proof.
  split; [reflexivity|]. split; [discriminate|]. split; [reflexivity|].
  split; [reflexivity|]. split; [reflexivity|].
  apply (C6_sink_called_once Sample.no_detections 30 30 1 640%Q 480%Q
           (Sample.frame 2) 0 Sample.streaming);
    first [reflexivity | discriminate].
Defined.

(** C7: in a run, for every frame that is scored the trace holds, in this
    order, the call of the model, one call of [logic] and then the drawing
    and the display of [plot_boxes].  [logic] gets one region
    [(frame, x1, y1, x2 - x1, y2 - y1)] per row, the corners computed with
    the dimensions of the frame itself, and the width and height the source
    reported when it was opened.  There are as many calls of [logic] as
    scored frames. *)
Theorem C7_sink_arguments v cam model k :
  stride (v_fps v) (target_fps cam (v_fps v)) = Ok k -> k <> 0 ->
  exists st,
    call (Some v) cam model initial = (Ok (Z.of_nat (length (v_frames v))), st)
    /\ length (logic_calls (trace st)) = length (scored (trace st))
    /\ forall r img,
         v_frames v !! r = Some img -> is_scored k (Z.of_nat r + 1) = true ->
         exists pre post,
           trace st
           = pre
             ++ [EModel r;
                 ELogic
                   (map (fun row =>
                           {| r_frame := r;
                              r_x := to_pixel (row0 row) (shape1 img);
                              r_y := to_pixel (row1 row) (shape0 img);
                              r_w := to_pixel (row2 row) (shape1 img)
                                     - to_pixel (row0 row) (shape1 img);
                              r_h := to_pixel (row3 row) (shape0 img)
                                     - to_pixel (row1 row) (shape0 img) |})
                        (cord_of model img))
                   (v_width v) (v_height v)]
             ++ flat_map (box_events r (length (labels_of model img))
                                     (shape1 img) (shape0 img))
                         (cord_of model img)
             ++ [EImshow "video" r
                   (rendered img (length (labels_of model img)) (cord_of model img))]
             ++ post.
Proof.
  intros Hk Hk0. eexists. split; [apply (call_spec v cam model k Hk Hk0)|].
  cbn [trace]. split.
  - rewrite logic_calls_run, scored_run. apply logic_calls_loop_length.
  - intros r img Hr Hsc.
    destruct (loop_events_turn model k (v_width v) (v_height v) (v_frames v)
                0 0%nat r img Hr) as (pre & post & E).
    rewrite E. unfold turn_events, turn_image.
    replace (0 + 1 + Z.of_nat r) with (Z.of_nat r + 1) by lia.
    rewrite Hsc. cbn [Nat.add].
    exists ([EStartWindowThread; EVideoCapture] ++ pre ++ [ERead true (Some r)]),
      (post ++ [ERead false None; ERelease; EDestroyAllWindows; EWaitKey 10]).
    rewrite <- !app_assoc. reflexivity.
Qed.

Lemma C7_sink_arguments_witness :
  stride (v_fps Sample.odd_clip) (target_fps 30 (v_fps Sample.odd_clip)) = Ok 1 /\
  1 <> 0 /\
  exists st,
    call (Some Sample.odd_clip) 30 Sample.one_person initial = (Ok 3, st)
    /\ logic_calls (trace st)
       = [([], 1280%Q, 720%Q); ([], 1280%Q, 720%Q);
          ([{| r_frame := 2%nat; r_x := 160; r_y := 120; r_w := 400; r_h := 120 |}],
           1280%Q, 720%Q)].
Proof.
  split; [reflexivity|]. split; [discriminate|].
  destruct (C7_sink_arguments Sample.odd_clip 30 Sample.one_person 1 eq_refl)
    as (st & Hcall & _); [discriminate|].
  exists st. split; [exact Hcall|].
  vm_compute in Hcall. injection Hcall as <-. reflexivity.
Defined.

(** ** Opening the source *)

(** C8, as the code has it: opening a file that cannot be opened does not
    fail.  [get_video_from_file] returns a capture that is not opened (its
    properties read 0), and [__call__] then stops with an [AssertionError]
    at [assert player.isOpened()], before any frame is read.  For a file that
    opens, the capture gives the width, the height and the frame rate of the
    source, and the width and height are kept on [self]. *)
Theorem C8_unopened_source_fails_assertion cam model :
  (forall s,
     get_video_from_file None s =
       (Ok {| isOpened := false; CAP_PROP_FRAME_WIDTH := 0;
              CAP_PROP_FRAME_HEIGHT := 0; CAP_PROP_FPS := 0; stream := [] |},
        {| heap := heap s; trace := trace s ++ [EVideoCapture];
           self_width := Some 0%Q; self_height := Some 0%Q |}))
  /\ call None cam model initial =
       (Raise AssertionError,
        {| heap := []; trace := [EStartWindowThread; EVideoCapture];
           self_width := Some 0%Q; self_height := Some 0%Q |})
  /\ (forall v s,
        get_video_from_file (Some v) s =
          (Ok {| isOpened := true; CAP_PROP_FRAME_WIDTH := v_width v;
                 CAP_PROP_FRAME_HEIGHT := v_height v; CAP_PROP_FPS := v_fps v;
                 stream := v_frames v |},
           {| heap := heap s; trace := trace s ++ [EVideoCapture];
              self_width := Some (v_width v);
              self_height := Some (v_height v) |})).
Proof. repeat split. Qed.

(** C8, as stated, fails: on a file that cannot be opened neither the opening
    nor the run raises [IOError]; the opening returns, and the run raises
    [AssertionError]. *)
Lemma C8_no_IOError :
  fst (get_video_from_file None initial) <> Raise IOError
  /\ fst (call None 10 Sample.no_detections initial) <> Raise IOError
  /\ fst (call None 10 Sample.no_detections initial) = Raise AssertionError.
Proof. repeat split; vm_compute; discriminate. Qed.

(** ** The frame buffer *)

(** C9: [plot_boxes] returns the very frame it was given, makes no new
    object, leaves every other object as it was, and changes the frame only
    by what it draws: shape and decoded pixels stay, the drawing calls are
    added to what was drawn before. *)
Theorem C9_plot_boxes_in_place lbls cord frame s img :
  length lbls = length cord ->
  heap s !! frame = Some img ->
  exists s',
    plot_boxes (lbls, cord) frame s = (Ok frame, s')
    /\ length (heap s') = length (heap s)
    /\ heap s' !! frame
       = Some {| shape0 := shape0 img; shape1 := shape1 img; pixels := pixels img;
                 overlays := overlays img
                             ++ flat_map (box_ops (length cord) (shape1 img) (shape0 img))
                                         cord |}
    /\ forall r, r <> frame -> heap s' !! r = heap s !! r.
Proof.
  intros Hlen Hr. pose proof (lookup_lt_Some _ _ _ Hr) as Hlt.
  eexists. split; [apply (plot_boxes_spec _ _ _ _ _ Hlen Hr)|].
  cbn [heap]. split; [apply length_insert|]. split.
  - rewrite list_lookup_insert_eq by exact Hlt. now rewrite Hlen.
  - intros r Hne. apply list_lookup_insert_ne. congruence.
Qed.

Lemma C9_plot_boxes_in_place_witness :
  length [0%Q] = length [CordRow (1 # 4) (1 # 4) (7 # 8) (1 # 2) (9 # 10)] /\
  heap Sample.streaming !! 0%nat = Some (Sample.frame 1) /\
  exists s',
    plot_boxes ([0%Q], [CordRow (1 # 4) (1 # 4) (7 # 8) (1 # 2) (9 # 10)])
      0%nat Sample.streaming = (Ok 0%nat, s')
    /\ length (heap s') = 1%nat
    /\ heap s' !! 0%nat
       = Some {| shape0 := 480; shape1 := 640; pixels := 1;
                 overlays :=
                   [OpRectangle (160, 120) (560, 240) (0, 0, 255) 1;
                    OpText "Total Targets: 1" (30, 30) FONT_HERSHEY_SIMPLEX 1
                      (0, 255, 0) 2] |}.
Proof.
  split; [reflexivity|]. split; [reflexivity|].
  destruct (C9_plot_boxes_in_place [0%Q]
              [CordRow (1 # 4) (1 # 4) (7 # 8) (1 # 2) (9 # 10)]
              0%nat Sample.streaming (Sample.frame 1) eq_refl eq_refl)
    as (s' & Hp & Hl & Hf & _).
  exists s'. split; [exact Hp|]. split; [exact Hl|exact Hf].
Defined.

(** ** The display *)

(** C10, as the code has it: in a run whose stride is a number other than 0,
    that is in every run whose loop does not raise, every frame read is
    presented to the window 'video' exactly once, in the order of reading:
    an unscored frame as it was read, a scored frame as [plot_boxes] left
    it. *)
Theorem C10_every_frame_shown_once v cam model k :
  stride (v_fps v) (target_fps cam (v_fps v)) = Ok k -> k <> 0 ->
  exists st,
    call (Some v) cam model initial = (Ok (Z.of_nat (length (v_frames v))), st)
    /\ reads (trace st) = seq 0 (length (v_frames v))
    /\ map (fun x : string * nat * image => snd (fst x)) (shown (trace st))
       = reads (trace st)
    /\ shown (trace st)
       = imap (fun r img =>
                 ("video"%string, r,
                  if is_scored k (Z.of_nat r + 1)
                  then rendered img (length (labels_of model img)) (cord_of model img)
                  else img)) (v_frames v).
Proof.
  intros Hk Hk0. eexists. split; [apply (call_spec v cam model k Hk Hk0)|].
  cbn [trace]. rewrite reads_run, shown_run, reads_loop.
  rewrite (shown_loop model k _ _ (v_frames v) 0).
  split; [reflexivity|]. split; [|reflexivity].
  apply (shown_names (v_frames v)).
Qed.

Lemma C10_every_frame_shown_once_witness :
  stride (v_fps (Sample.clip 30)) (target_fps 10 (v_fps (Sample.clip 30))) = Ok 3 /\
  3 <> 0 /\
  exists st,
    call (Some (Sample.clip 30)) 10 Sample.one_person initial = (Ok 3, st)
    /\ reads (trace st) = [0; 1; 2]%nat
    /\ map (fun x : string * nat * image => snd (fst x)) (shown (trace st))
       = [0; 1; 2]%nat.
Proof.
  split; [reflexivity|]. split; [discriminate|].
  destruct (C10_every_frame_shown_once (Sample.clip 30) 10 Sample.one_person 3
              eq_refl) as (st & Hcall & Hreads & Hshown & _); [discriminate|].
  exists st. split; [exact Hcall|]. split; [exact Hreads|].
  rewrite Hshown. exact Hreads.
Defined.

(** C10, as stated, fails: with a target rate of 0 the first frame is read
    and the run raises before presenting it; the frame is never shown. *)
Lemma C10_frame_read_but_not_shown :
  fst (call (Some (Sample.clip 30)) 0 Sample.no_detections initial)
  = Raise ZeroDivisionError
  /\ reads (trace (snd (call (Some (Sample.clip 30)) 0 Sample.no_detections initial)))
     = [0%nat]
  /\ shown (trace (snd (call (Some (Sample.clip 30)) 0 Sample.no_detections initial)))
     = [].
Proof. repeat split. Qed.

(** * Further properties of the code *)

(** ** Which configurations run *)

Lemma stride_cases frame_rate fps :
  stride frame_rate fps = Raise ZeroDivisionError
  \/ exists k, stride frame_rate fps = Ok k.
Proof.
  unfold stride, Py.truediv. destruct (Py.is_zero fps); [now left|right].
  now eexists.
Qed.








(** ** How many frames are scored *)

Lemma div_succ n k :
  1 <= k -> 0 <= n ->
  (n + 1) / k = n / k + (if (n + 1) mod k =? 0 then 1 else 0).
Proof.
  intros Hk Hn. destruct (Z.eqb_spec ((n + 1) mod k) 0) as [E | E].
  - pose proof (Z.div_mod (n + 1) k ltac:(lia)) as H1.
    pose proof (Z.div_mod n k ltac:(lia)) as H2.
    pose proof (Z.mod_pos_bound n k ltac:(lia)) as H3.
    rewrite E in H1. nia.
  - pose proof (Z.div_mod (n + 1) k ltac:(lia)) as H1.
    pose proof (Z.div_mod n k ltac:(lia)) as H2.
    pose proof (Z.mod_pos_bound n k ltac:(lia)) as H3.
    pose proof (Z.mod_pos_bound (n + 1) k ltac:(lia)) as H4.
    nia.
Qed.

Lemma scored_count k n :
  1 <= k ->
  Z.of_nat (length (List.filter (fun i => is_scored k (Z.of_nat i + 1)) (seq 0 n)))
  = Z.of_nat n / k.
Proof.
  intros Hk. induction n as [|n IH].
  - cbn. now rewrite Z.div_0_l by lia.
  - rewrite seq_S, List.filter_app, length_app, Nat2Z.inj_add, IH.
    cbn [Nat.add List.filter]. rewrite Nat2Z.inj_succ, <- Z.add_1_r.
    rewrite (div_succ (Z.of_nat n) k Hk) by lia.
    unfold is_scored. now destruct ((Z.of_nat n + 1) mod k =? 0).
Qed.

(** In a run with a stride [k] of at least 1 over [n] frames the model is
    called on [n / k] frames (whole division), and [logic] as often. *)
Theorem scored_frames_count v cam model k :
  stride (v_fps v) (target_fps cam (v_fps v)) = Ok k -> 1 <= k ->
  exists st,
    call (Some v) cam model initial = (Ok (Z.of_nat (length (v_frames v))), st)
    /\ Z.of_nat (length (scored (trace st))) = Z.of_nat (length (v_frames v)) / k
    /\ Z.of_nat (length (logic_calls (trace st))) = Z.of_nat (length (v_frames v)) / k.
Proof.
  intros Hk Hge. eexists.
  split; [apply (call_spec v cam model k Hk); lia|]. cbn [trace].
  rewrite logic_calls_run, scored_run, logic_calls_loop_length.
  rewrite (scored_loop model k _ _ (v_frames v) 0).
  split; now apply scored_count.
Qed.

Lemma scored_frames_count_witness :
  stride (v_fps (Sample.clip 30)) (target_fps 15 (v_fps (Sample.clip 30))) = Ok 2 /\
  1 <= 2 /\
  exists st,
    call (Some (Sample.clip 30)) 15 Sample.one_person initial = (Ok 3, st)
    /\ Z.of_nat (length (scored (trace st))) = 1
    /\ Z.of_nat (length (logic_calls (trace st))) = 1.
Proof.
  split; [reflexivity|]. split; [lia|].
  apply (scored_frames_count (Sample.clip 30) 15 Sample.one_person 2);
    [reflexivity|lia].
Defined.

(** ** How a run ends *)

Lemma releases_app l1 l2 : releases (l1 ++ l2) = (releases l1 + releases l2)%nat.
Proof. unfold releases. now rewrite flat_map_app, length_app. Qed.

Lemma window_closes_app l1 l2 :
  window_closes (l1 ++ l2) = (window_closes l1 + window_closes l2)%nat.
Proof. unfold window_closes. now rewrite flat_map_app, length_app. Qed.

Lemma releases_turn model k w h c r img :
  releases (turn_events model k w h c r img) = 0%nat
  /\ window_closes (turn_events model k w h c r img) = 0%nat.
Proof.
  unfold turn_events, releases, window_closes.
  destruct (is_scored k c); [|split; reflexivity].
  rewrite !flat_map_app, !flat_map_box_events by reflexivity. split; reflexivity.
Qed.

Lemma releases_loop model k w h pending : forall c r,
  releases (loop_events model k w h c r pending) = 0%nat
  /\ window_closes (loop_events model k w h c r pending) = 0%nat.
Proof.
  induction pending as [|img pending IH]; intros c r; [split; reflexivity|].
  cbn [loop_events]. rewrite releases_app, window_closes_app.
  destruct (releases_turn model k w h (c + 1) r img) as [-> ->].
  destruct (IH (c + 1) (S r)) as [-> ->]. split; reflexivity.
Qed.

(** A run that goes through ends with the failed [read()], then
    [release()], [destroyAllWindows()] and [waitKey(10)], in this order; the
    source is released once and the windows are closed once, both after the
    last [read()]. *)
Theorem run_releases_once v cam model k :
  stride (v_fps v) (target_fps cam (v_fps v)) = Ok k -> k <> 0 ->
  exists st body,
    call (Some v) cam model initial = (Ok (Z.of_nat (length (v_frames v))), st)
    /\ trace st
       = body ++ [ERead false None; ERelease; EDestroyAllWindows; EWaitKey 10]
    /\ releases body = 0%nat /\ window_closes body = 0%nat
    /\ releases (trace st) = 1%nat /\ window_closes (trace st) = 1%nat.
Proof.
  intros Hk Hk0. eexists.
  exists ([EStartWindowThread; EVideoCapture]
          ++ loop_events model k (v_width v) (v_height v) 0 0 (v_frames v)).
  split; [apply (call_spec v cam model k Hk Hk0)|]. cbn [trace].
  split; [now rewrite <- app_assoc|].
  rewrite !releases_app, !window_closes_app.
  destruct (releases_loop model k (v_width v) (v_height v) (v_frames v) 0 0%nat)
    as [-> ->].
  repeat split; reflexivity.
Qed.

Lemma run_releases_once_witness :
  stride (v_fps (Sample.clip 30)) (target_fps 10 (v_fps (Sample.clip 30))) = Ok 3 /\
  3 <> 0 /\
  exists st body,
    call (Some (Sample.clip 30)) 10 Sample.one_person initial = (Ok 3, st)
    /\ trace st
       = body ++ [ERead false None; ERelease; EDestroyAllWindows; EWaitKey 10]
    /\ releases body = 0%nat /\ window_closes body = 0%nat
    /\ releases (trace st) = 1%nat /\ window_closes (trace st) = 1%nat.
Proof.
  split; [reflexivity|]. split; [discriminate|].
  apply (run_releases_once (Sample.clip 30) 10 Sample.one_person 3);
    [reflexivity|discriminate].
Defined.

(** A run that raises leaves the source unreleased and the windows open:
    after an exception neither [release()] nor [destroyAllWindows()] has been
    called. *)
Theorem failed_run_never_releases input cam model e st :
  call input cam model initial = (Raise e, st) ->
  releases (trace st) = 0%nat /\ window_closes (trace st) = 0%nat.
Proof.
  destruct input as [v|].
  - destruct (stride_cases (v_fps v) (target_fps cam (v_fps v))) as [Hz | [k Hk]].
    + rewrite (call_zero v cam model (or_introl Hz)).
      destruct (v_frames v); [discriminate|].
      intros H. injection H as _ <-. split; reflexivity.
    + destruct (Z.eq_dec k 0) as [-> | Hk0].
      * rewrite (call_zero v cam model (or_intror Hk)).
        destruct (v_frames v); [discriminate|].
        intros H. injection H as _ <-. split; reflexivity.
      * rewrite (call_spec v cam model k Hk Hk0). discriminate.
  - intros H. cbv in H. injection H as _ <-. split; reflexivity.
Qed.

Lemma failed_run_never_releases_witness :
  call (Some (Sample.clip 30)) 0 Sample.no_detections initial
  = (Raise ZeroDivisionError,
     {| heap := [Sample.frame 1];
        trace := [EStartWindowThread; EVideoCapture; ERead true (Some 0%nat)];
        self_width := Some 640%Q; self_height := Some 480%Q |})
  /\ releases [EStartWindowThread; EVideoCapture; ERead true (Some 0%nat)] = 0%nat
  /\ window_closes [EStartWindowThread; EVideoCapture; ERead true (Some 0%nat)]
     = 0%nat.
Proof.
  split; [reflexivity|].
  apply (failed_run_never_releases (Some (Sample.clip 30)) 0
           Sample.no_detections ZeroDivisionError
           {| heap := [Sample.frame 1];
              trace := [EStartWindowThread; EVideoCapture; ERead true (Some 0%nat)];
              self_width := Some 640%Q; self_height := Some 480%Q |}).
  reflexivity.
Defined.

(** ** Pixel coordinates *)

(** A normalised coordinate in [0, 1] becomes a pixel coordinate between
    0 and the dimension, both included: 0 becomes 0 and 1 becomes the
    dimension itself, one past the last row or column of the frame.  The
    conversion keeps the order of coordinates. *)
Theorem to_pixel_in_frame x y shape :
  (0 <= x)%Q -> (x <= y)%Q -> (y <= 1)%Q -> 0 <= shape ->
  0 <= to_pixel x shape
  /\ to_pixel x shape <= to_pixel y shape
  /\ to_pixel y shape <= shape
  /\ to_pixel 0 shape = 0
  /\ to_pixel 1 shape = shape.
Proof.
  intros Hx Hxy Hy Hs.
  assert (Hy0 : (0 <= y)%Q) by now apply (Qle_trans _ x).
  rewrite (to_pixel_floor x shape Hx Hs), (to_pixel_floor y shape Hy0 Hs).
  split; [|split; [|split; [|split]]].
  - change 0 with (Qfloor 0). apply Qfloor_resp_le.
    rewrite <- (Qmult_0_l (inject_Z shape)). now apply scaled_le.
  - apply Qfloor_resp_le. now apply scaled_le.
  - rewrite <- (Qfloor_Z shape) at 2. apply Qfloor_resp_le.
    rewrite <- (Qmult_1_l (inject_Z shape)) at 2. now apply scaled_le.
  - unfold to_pixel, Py.int. cbn. apply Z.quot_0_l. discriminate.
  - unfold to_pixel, Py.int. cbn [Qmult Qnum Qden inject_Z Pos.mul].
    rewrite Z.mul_1_l. apply Z.quot_1_r.
Qed.

Lemma to_pixel_in_frame_witness :
  (0 <= 1 # 4)%Q /\ (1 # 4 <= 7 # 8)%Q /\ (7 # 8 <= 1)%Q /\ 0 <= 640 /\
  0 <= to_pixel (1 # 4) 640
  /\ to_pixel (1 # 4) 640 <= to_pixel (7 # 8) 640
  /\ to_pixel (7 # 8) 640 <= 640
  /\ to_pixel 0 640 = 0
  /\ to_pixel 1 640 = 640.
Proof.
  split; [discriminate|]. split; [discriminate|]. split; [discriminate|].
  split; [lia|].
  apply (to_pixel_in_frame (1 # 4) (7 # 8) 640); first [discriminate | lia].
Defined.

(** The region made of a row whose corners are ordered and lie in
    [0, 1] has a width and a height that are not negative and lies within the
    frame: [0 <= x], [x + w <= shape[1]], [0 <= y], [y + h <= shape[0]]. *)
Theorem face_within_frame frame x_shape y_shape row :
  (0 <= row0 row)%Q -> (row0 row <= row2 row)%Q -> (row2 row <= 1)%Q ->
  (0 <= row1 row)%Q -> (row1 row <= row3 row)%Q -> (row3 row <= 1)%Q ->
  0 <= x_shape -> 0 <= y_shape ->
  let f := face frame x_shape y_shape row in
  r_frame f = frame
  /\ 0 <= r_x f /\ 0 <= r_w f /\ r_x f + r_w f <= x_shape
  /\ 0 <= r_y f /\ 0 <= r_h f /\ r_y f + r_h f <= y_shape.
Proof.
  intros Hx0 Hx Hx1 Hy0 Hy Hy1 Hxs Hys. cbn.
  destruct (to_pixel_in_frame _ _ x_shape Hx0 Hx Hx1 Hxs) as (A1 & A2 & A3 & _).
  destruct (to_pixel_in_frame _ _ y_shape Hy0 Hy Hy1 Hys) as (B1 & B2 & B3 & _).
  repeat split; lia.
Qed.

Lemma face_within_frame_witness :
  let row := CordRow (1 # 4) (1 # 4) (7 # 8) (1 # 2) (9 # 10) in
  (0 <= row0 row)%Q /\ (row0 row <= row2 row)%Q /\ (row2 row <= 1)%Q /\
  (0 <= row1 row)%Q /\ (row1 row <= row3 row)%Q /\ (row3 row <= 1)%Q /\
  0 <= 640 /\ 0 <= 480 /\
  face 2%nat 640 480 row
  = {| r_frame := 2%nat; r_x := 160; r_y := 120; r_w := 400; r_h := 120 |}
  /\ 0 <= r_w (face 2%nat 640 480 row)
  /\ r_x (face 2%nat 640 480 row) + r_w (face 2%nat 640 480 row) <= 640.
Proof.
  cbv zeta.
  do 6 (split; [discriminate|]). do 2 (split; [lia|]).
  split; [reflexivity|].
  destruct (face_within_frame 2%nat 640 480
              (CordRow (1 # 4) (1 # 4) (7 # 8) (1 # 2) (9 # 10)))
    as (_ & _ & Hw & Hxw & _);
    [discriminate|discriminate|discriminate|discriminate|discriminate
    |discriminate|lia|lia|].
  split; [exact Hw|exact Hxw].
Defined.

(** ** [plot_boxes] on any results *)

Lemma getitem_none {A} (l : list A) i :
  l !! i = None -> getitem l i = raise IndexError.
Proof. intros H. unfold getitem. now rewrite H. Qed.

(** The loop of [plot_boxes] when the range ends within the rows. *)
Lemma plot_boxes_for_take m : forall rest pre n xs ys r s img,
  heap s !! r = Some img -> (m <= length rest)%nat ->
  plot_boxes_for (pre ++ rest) n xs ys r (seq (length pre) m) s =
    (Ok tt,
     {| heap := <[r := paint img (flat_map (box_ops n xs ys) (take m rest))]> (heap s);
        trace := trace s ++ flat_map (box_events r n xs ys) (take m rest);
        self_width := self_width s; self_height := self_height s |}).
Proof.
  induction m as [|m IH]; intros rest pre n xs ys r s img Hr Hm.
  - cbn [seq plot_boxes_for take flat_map].
    rewrite paint_nil, (list_insert_id _ _ _ Hr), app_nil_r. now destruct s.
  - destruct rest as [|row rest]; [cbn in Hm; lia|]. cbn [length] in Hm.
    pose proof (lookup_lt_Some _ _ _ Hr) as Hlt.
    cbn [seq plot_boxes_for take flat_map].
    rewrite (getitem_ok _ _ row) by now apply list_lookup_middle.
    rewrite bind_ret. cbv beta zeta.
    erewrite bind_ok; [|apply rectangle_ok; exact Hr].
    erewrite bind_ok;
      [|apply putText_ok; cbn [heap]; now apply list_lookup_insert_eq].
    cbn [heap trace self_width self_height].
    replace (pre ++ row :: rest) with ((pre ++ [row]) ++ rest)
      by now rewrite <- app_assoc.
    replace (S (length pre)) with (length (pre ++ [row]))
      by (rewrite length_app; simpl; lia).
    erewrite IH;
      [|cbn [heap]; apply list_lookup_insert_eq; now rewrite length_insert|lia].
    cbn [heap trace self_width self_height].
    rewrite !list_insert_insert_eq, !paint_paint, <- !app_assoc.
    reflexivity.
Qed.

(** The loop of [plot_boxes] when the range goes beyond the rows. *)
Lemma plot_boxes_for_short rest : forall m pre n xs ys r s img,
  heap s !! r = Some img -> (length rest < m)%nat ->
  plot_boxes_for (pre ++ rest) n xs ys r (seq (length pre) m) s =
    (Raise IndexError,
     {| heap := <[r := paint img (flat_map (box_ops n xs ys) rest)]> (heap s);
        trace := trace s ++ flat_map (box_events r n xs ys) rest;
        self_width := self_width s; self_height := self_height s |}).
Proof.
  induction rest as [|row rest IH]; intros m pre n xs ys r s img Hr Hm;
    (destruct m as [|m]; [cbn in Hm; lia|]); cbn [length] in Hm.
  - cbn [seq plot_boxes_for flat_map].
    rewrite getitem_none
      by (apply lookup_ge_None; rewrite app_nil_r; lia).
    erewrite bind_raise; [|reflexivity].
    rewrite paint_nil, (list_insert_id _ _ _ Hr), app_nil_r. now destruct s.
  - pose proof (lookup_lt_Some _ _ _ Hr) as Hlt.
    cbn [seq plot_boxes_for flat_map].
    rewrite (getitem_ok _ _ row) by now apply list_lookup_middle.
    rewrite bind_ret. cbv beta zeta.
    erewrite bind_ok; [|apply rectangle_ok; exact Hr].
    erewrite bind_ok;
      [|apply putText_ok; cbn [heap]; now apply list_lookup_insert_eq].
    cbn [heap trace self_width self_height].
    replace (pre ++ row :: rest) with ((pre ++ [row]) ++ rest)
      by now rewrite <- app_assoc.
    replace (S (length pre)) with (length (pre ++ [row]))
      by (rewrite length_app; simpl; lia).
    erewrite IH;
      [|cbn [heap]; apply list_lookup_insert_eq; now rewrite length_insert|lia].
    cbn [heap trace self_width self_height].
    rewrite !list_insert_insert_eq, !paint_paint, <- !app_assoc.
    reflexivity.
Qed.

Lemma plot_boxes_draws_witness :
  length [0%Q; 0%Q]
  = length [CordRow (1 # 4) (1 # 4) (7 # 8) (1 # 2) (9 # 10);
            CordRow 0 0 (1 # 2) 1 (1 # 2)] /\
  heap Sample.streaming !! 0%nat = Some (Sample.frame 1) /\
  exists s',
    plot_boxes ([0%Q; 0%Q],
                [CordRow (1 # 4) (1 # 4) (7 # 8) (1 # 2) (9 # 10);
                 CordRow 0 0 (1 # 2) 1 (1 # 2)]) 0%nat Sample.streaming
    = (Ok 0%nat, s')
    /\ rectangles 0%nat (trace s')
       = [((160, 120), (560, 240)); ((0, 0), (320, 480))]
    /\ label_texts 0%nat (trace s') = ["Total Targets: 2"; "Total Targets: 2"]%string.
Proof.
  split; [reflexivity|]. split; [reflexivity|].
  apply (plot_boxes_draws [0%Q; 0%Q]
           [CordRow (1 # 4) (1 # 4) (7 # 8) (1 # 2) (9 # 10);
            CordRow 0 0 (1 # 2) 1 (1 # 2)] 0%nat Sample.streaming (Sample.frame 1));
    reflexivity.
Defined.

(** [plot_boxes] called with more labels than rows raises [IndexError]
    at the first missing row; by then every row has been drawn into the
    frame, with a label that counts the labels, and the frame has not been
    shown. *)
Theorem plot_boxes_missing_rows lbls cord frame s img :
  (length cord < length lbls)%nat ->
  heap s !! frame = Some img ->
  plot_boxes (lbls, cord) frame s =
    (Raise IndexError,
     {| heap := <[frame := rendered img (length lbls) cord]> (heap s);
        trace := trace s
                 ++ flat_map (box_events frame (length lbls) (shape1 img) (shape0 img))
                             cord;
        self_width := self_width s; self_height := self_height s |}).
Proof.
  intros Hlen Hr. unfold plot_boxes.
  rewrite (bind_ok _ _ _ _ _ (deref_ok _ _ _ Hr)).
  erewrite bind_raise;
    [|apply (plot_boxes_for_short cord (length lbls) [] _ _ _ _ _ _ Hr Hlen)].
  reflexivity.
Qed.

Lemma plot_boxes_missing_rows_witness :
  (length (@nil cord_row) < length [0%Q])%nat /\
  heap Sample.streaming !! 0%nat = Some (Sample.frame 1) /\
  plot_boxes ([0%Q], []) 0%nat Sample.streaming =
    (Raise IndexError,
     {| heap := [Sample.frame 1]; trace := [];
        self_width := Some 640%Q; self_height := Some 480%Q |}).
Proof.
  split; [cbn; lia|]. split; [reflexivity|].
  apply (plot_boxes_missing_rows [0%Q] [] 0%nat Sample.streaming (Sample.frame 1));
    [cbn; lia|reflexivity].
Defined.

(** [plot_boxes] called with fewer labels than rows draws the first
    [len(labels)] rows only, labels them with the count of the labels, and
    shows the frame. *)
Theorem plot_boxes_extra_rows lbls cord frame s img :
  (length lbls <= length cord)%nat ->
  heap s !! frame = Some img ->
  plot_boxes (lbls, cord) frame s =
    (Ok frame,
     {| heap := <[frame := rendered img (length lbls) (take (length lbls) cord)]>
                  (heap s);
        trace := trace s
                 ++ flat_map (box_events frame (length lbls) (shape1 img) (shape0 img))
                             (take (length lbls) cord)
                 ++ [EImshow "video" frame
                       (rendered img (length lbls) (take (length lbls) cord))];
        self_width := self_width s; self_height := self_height s |}).
Proof.
  intros Hlen Hr. pose proof (lookup_lt_Some _ _ _ Hr) as Hlt.
  unfold plot_boxes.
  rewrite (bind_ok _ _ _ _ _ (deref_ok _ _ _ Hr)).
  erewrite bind_ok;
    [|apply (plot_boxes_for_take (length lbls) cord [] _ _ _ _ _ _ Hr Hlen)].
  erewrite bind_ok;
    [|apply imshow_ok; cbn [heap]; now apply list_lookup_insert_eq].
  cbn [heap trace self_width self_height]. unfold rendered.
  rewrite <- app_assoc. reflexivity.
Qed.

Lemma plot_boxes_extra_rows_witness :
  (length [0%Q]
   <= length [CordRow (1 # 4) (1 # 4) (7 # 8) (1 # 2) (9 # 10);
              CordRow 0 0 (1 # 2) 1 (1 # 2)])%nat /\
  heap Sample.streaming !! 0%nat = Some (Sample.frame 1) /\
  exists s',
    plot_boxes ([0%Q],
                [CordRow (1 # 4) (1 # 4) (7 # 8) (1 # 2) (9 # 10);
                 CordRow 0 0 (1 # 2) 1 (1 # 2)]) 0%nat Sample.streaming
    = (Ok 0%nat, s')
    /\ rectangles 0%nat (trace s') = [((160, 120), (560, 240))]
    /\ label_texts 0%nat (trace s') = ["Total Targets: 1"]%string.
Proof.
  split; [cbn; lia|]. split; [reflexivity|].
  eexists. split.
  - apply (plot_boxes_extra_rows [0%Q]
             [CordRow (1 # 4) (1 # 4) (7 # 8) (1 # 2) (9 # 10);
              CordRow 0 0 (1 # 2) 1 (1 # 2)] 0%nat Sample.streaming (Sample.frame 1));
      [cbn; lia|reflexivity].
  - split; reflexivity.
Defined.

(** ** The frames of a run *)

Lemma loop_heap_lookup model k pending : forall c i,
  loop_heap model k c pending !! i
  = turn_image model k (c + 1 + Z.of_nat i) <$> pending !! i.
Proof.
  induction pending as [|x pending IH]; intros c i; [reflexivity|].
  destruct i as [|i]; cbn [loop_heap].
  - cbn. now rewrite Z.add_0_r.
  - cbn [lookup list_lookup]. rewrite IH. f_equal. f_equal. lia.
Qed.

(** A run makes one frame object per frame read and no other, and a turn
    touches no frame but its own: at the end a frame that was not scored is
    exactly as it was read, nothing was drawn on it, and a scored frame is as
    the [plot_boxes] of its own turn left it. *)
Theorem run_keeps_frames v cam model k :
  stride (v_fps v) (target_fps cam (v_fps v)) = Ok k -> k <> 0 ->
  exists st,
    call (Some v) cam model initial = (Ok (Z.of_nat (length (v_frames v))), st)
    /\ length (heap st) = length (v_frames v)
    /\ forall r img,
         v_frames v !! r = Some img ->
         heap st !! r
         = Some (if is_scored k (Z.of_nat r + 1)
                 then rendered img (length (labels_of model img)) (cord_of model img)
                 else img).
Proof.
  intros Hk Hk0. eexists. split; [apply (call_spec v cam model k Hk Hk0)|].
  cbn [heap]. split; [apply loop_heap_length|].
  intros r img Hr. rewrite loop_heap_lookup, Hr. cbn [fmap option_fmap option_map].
  replace (0 + 1 + Z.of_nat r) with (Z.of_nat r + 1) by lia.
  reflexivity.
Qed.

Lemma run_keeps_frames_witness :
  stride (v_fps (Sample.clip 30)) (target_fps 10 (v_fps (Sample.clip 30))) = Ok 3 /\
  3 <> 0 /\
  exists st,
    call (Some (Sample.clip 30)) 10 Sample.one_person initial = (Ok 3, st)
    /\ length (heap st) = 3%nat
    /\ heap st !! 0%nat = Some (Sample.frame 1)
    /\ heap st !! 1%nat = Some (Sample.frame 2)
    /\ heap st !! 2%nat
       = Some {| shape0 := 480; shape1 := 640; pixels := 3;
                 overlays :=
                   [OpRectangle (160, 120) (560, 240) (0, 0, 255) 1;
                    OpText "Total Targets: 1" (30, 30) FONT_HERSHEY_SIMPLEX 1
                      (0, 255, 0) 2] |}.
Proof.
  split; [reflexivity|]. split; [discriminate|].
  destruct (run_keeps_frames (Sample.clip 30) 10 Sample.one_person 3 eq_refl)
    as (st & Hcall & Hlen & Hf); [discriminate|].
  exists st. split; [exact Hcall|]. split; [exact Hlen|].
  split; [exact (Hf 0%nat (Sample.frame 1) eq_refl)|].
  split; [exact (Hf 1%nat (Sample.frame 2) eq_refl)|].
  exact (Hf 2%nat (Sample.frame 3) eq_refl).
Defined.

(** The regions handed to [logic] are not copies.  In a turn that scores
    its frame every region names the frame object that was just read, and
    that same object is the one [plot_boxes] draws on afterwards: when the
    turn ends it carries the rectangles and labels. *)
Theorem regions_share_the_frame model frame_rate fps k w h img current_frame s :
  stride frame_rate fps = Ok k -> k <> 0 ->
  is_scored k (current_frame + 1) = true ->
  self_width s = Some w -> self_height s = Some h ->
  exists s' faces,
    loop_body model frame_rate fps img current_frame s = (Ok (current_frame + 1), s')
    /\ logic_calls (trace s') = logic_calls (trace s) ++ [(faces, w, h)]
    /\ Forall (fun f => r_frame f = length (heap s)) faces
    /\ heap s !! length (heap s) = None
    /\ heap s' !! length (heap s)
       = Some (rendered img (length (labels_of model img)) (cord_of model img))
    /\ forall r, (r < length (heap s))%nat -> heap s' !! r = heap s !! r.
Proof.
  intros Hk Hk0 Hsc Hw Hh. eexists. exists (faces_of model (length (heap s)) img).
  split; [now apply (loop_body_spec model frame_rate fps k w h)|].
  cbn [trace heap]. split; [|split; [|split; [|split]]].
  - unfold logic_calls at 1. rewrite flat_map_app.
    fold (logic_calls (trace s)).
    fold (logic_calls (turn_events model k w h (current_frame + 1) (length (heap s)) img)).
    now rewrite logic_calls_turn, Hsc.
  - unfold faces_of. apply Forall_forall. intros f Hf.
    apply list_elem_of_In, in_map_iff in Hf. destruct Hf as (row & <- & _).
    reflexivity.
  - now apply lookup_ge_None.
  - rewrite list_lookup_middle by reflexivity.
    unfold turn_image. now rewrite Hsc.
  - intros r Hlt. now apply lookup_app_l.
Qed.

Lemma regions_share_the_frame_witness :
  stride 30 30 = Ok 1 /\ 1 <> 0 /\ is_scored 1 (2 + 1) = true /\
  self_width Sample.streaming = Some 640%Q /\
  self_height Sample.streaming = Some 480%Q /\
  exists s' faces,
    loop_body Sample.one_person 30 30 (Sample.frame 3) 2 Sample.streaming
    = (Ok (2 + 1), s')
    /\ logic_calls (trace s') = [(faces, 640%Q, 480%Q)]
    /\ Forall (fun f => r_frame f = 1%nat) faces.
Proof.
  split; [reflexivity|]. split; [discriminate|]. split; [reflexivity|].
  split; [reflexivity|]. split; [reflexivity|].
  destruct (regions_share_the_frame Sample.one_person 30 30 1 640%Q 480%Q
              (Sample.frame 3) 2 Sample.streaming eq_refl)
    as (s' & faces & Hb & Hl & Hf & _);
    [discriminate|reflexivity|reflexivity|reflexivity|].
  exists s', faces. split; [exact Hb|]. split; [exact Hl|exact Hf].
Defined.
